(** * discord.js-captcha: the constructor, [present] and the attempt loop

    A shallow embedding of [src/Captcha.ts] and [src/handleChannelType.ts].

    Conventions of the embedding.
    - A JavaScript object with optional keys is a record of [option]s:
      [None] is [undefined].
    - Strings are sequences of code units below 256, as [string]; a
      string with a code unit from 256 up is outside the model.
    - [number]s that count (attempts, milliseconds) are [Z]; the
      source computes with doubles, which agree with [Z] on integers
      between -2^53 and 2^53.
    - An [async] function is the function from what the platform answers
      to what the code does: a return value or a thrown error, together
      with the trace of the platform calls and emitted events in program
      order. *)

From Stdlib Require Import ZArith List String Ascii Bool Lia.
Import ListNotations.

#[local] Open Scope string_scope.
#[local] Open Scope list_scope.
#[local] Open Scope Z_scope.

(** ** JavaScript primitives used by the source *)

Module JS.

(** [if (s)] and [!s] on a string or [undefined]. *)
Definition truthy_string (s : option string) : bool :=
  match s with
  | Some (String _ _) => true
  | _ => false
  end.

(** [if (b)] on a boolean or [undefined]. *)
Definition truthy_bool (b : option bool) : bool :=
  match b with
  | Some true => true
  | _ => false
  end.

(** [b === true] (and [b == true], which agrees on booleans and
    [undefined]). *)
Definition strictly_true (b : option bool) : bool :=
  match b with
  | Some true => true
  | _ => false
  end.

(** [if (n)] on a number or [undefined]. *)
Definition truthy_number (n : option Z) : bool :=
  match n with
  | Some z => negb (z =? 0)
  | None => false
  end.

(** [n || d] on a number or [undefined]. *)
Definition number_or (n : option Z) (d : Z) : Z :=
  match n with
  | Some z => if z =? 0 then d else z
  | None => d
  end.

(** [String.prototype.toLowerCase] on one code unit below 256:
    [A]..[Z] and U+00C0..U+00DE (the multiplication sign U+00D7
    apart) move up by 32, every other code unit is its own lower
    case. *)
Definition lower_unit (c : ascii) : ascii :=
  let n := N_of_ascii c in
  if ((65 <=? n) && (n <=? 90))%N then ascii_of_N (n + 32)
  else if ((192 <=? n) && (n <=? 222) && negb (n =? 215))%N
       then ascii_of_N (n + 32)
       else c.

(** [String.prototype.toLowerCase] on a string of code units below 256,
    unit by unit. Beyond that range the source's lower-casing is not
    unit by unit (U+0130 becomes two code units); such strings are not
    modelled. *)
Fixpoint toLowerCase (s : string) : string :=
  match s with
  | EmptyString => EmptyString
  | String c s' => String (lower_unit c) (toLowerCase s')
  end.

End JS.

(** ** Data *)

(** [ChannelType] of discord.js, the members a text destination can
    have. *)
Inductive ChannelType :=
| GuildText
| DM
| GuildVoice
| GroupDM
| GuildAnnouncement
| AnnouncementThread
| PublicThread
| PrivateThread
| GuildStageVoice.

Definition ChannelType_eqb (a b : ChannelType) : bool :=
  match a, b with
  | GuildText, GuildText | DM, DM | GuildVoice, GuildVoice
  | GroupDM, GroupDM | GuildAnnouncement, GuildAnnouncement
  | AnnouncementThread, AnnouncementThread | PublicThread, PublicThread
  | PrivateThread, PrivateThread | GuildStageVoice, GuildStageVoice => true
  | _, _ => false
  end.

(** The footer [setFooter] puts on the prompt embed. *)
Inductive Footer :=
| OneAttempt                     (* "You have one attempt to solve the CAPTCHA." *)
| AttemptsLeftFooter (n : Z)     (* `Attempts Left: ${attemptsLeft}` *)
| OwnFooter (text : string).     (* the footer a custom embed came with *)

Inductive EmbedBody :=
| PromptBody
| SolvedBody
| FailedBody (captchaText : string)
| CustomBody (name : string).

Record Embed := mkEmbed {
  embedBody : EmbedBody;
  embedFooter : option Footer;
  embedImage : option string
}.

Definition setFooter (e : Embed) (f : Footer) : Embed :=
  mkEmbed (embedBody e) (Some f) (embedImage e).

Definition setImage (e : Embed) (url : string) : Embed :=
  mkEmbed (embedBody e) (embedFooter e) (Some url).

(** [interface CaptchaOptions]: every key is optional. *)
Record CaptchaOptions := mkOptions {
  roleID : option string;
  channelID : option string;
  sendToTextChannel : option bool;
  addRoleOnSuccess : option bool;
  kickOnFailure : option bool;
  caseSensitive : option bool;
  attempts : option Z;
  timeout : option Z;
  showAttemptCount : option bool;
  customPromptEmbed : option Embed;
  customSuccessEmbed : option Embed;
  customFailureEmbed : option Embed
}.

(** The options object [{}]. *)
Definition emptyOptions : CaptchaOptions :=
  mkOptions None None None None None None None None None None None None.

(** ** The constructor *)

Inductive ConfigError :=
| NoClient          (* No Discord Client was Provided! *)
| NoChannelID       (* "sendToTextChannel" was set to true, but "channelID" was not Provided! *)
| NoRoleID          (* "addRoleOnSuccess" was set to true, but "roleID" was not Provided! *)
| BadAttempts       (* Option "attempts" must be Greater than 0! *)
| BadTimeout.       (* Option "timeout" must be Greater than 0! *)

(** What [new Captcha(client, options)] does. *)
Inductive Construction :=
| Constructed (o : CaptchaOptions)   (* [this.options] of the new instance *)
| Unconfigured                       (* returned before [this.options] was set *)
| ProcessExit (code : Z) (why : ConfigError).

(** The assignments of lines 143-147. *)
Definition applyDefaults (o : CaptchaOptions) : CaptchaOptions :=
  mkOptions
    (roleID o)
    (channelID o)
    (sendToTextChannel o)
    (match addRoleOnSuccess o with None => Some true | b => b end)
    (kickOnFailure o)
    (match caseSensitive o with None => Some true | b => b end)
    (Some (JS.number_or (attempts o) 1))
    (Some (JS.number_or (timeout o) 60000))
    (match showAttemptCount o with None => Some true | b => b end)
    (customPromptEmbed o)
    (customSuccessEmbed o)
    (customFailureEmbed o).

(** [versionMajor] is [Number(version.split(".")[0])] of the installed
    discord.js; [client] tells whether a client was passed. *)
Definition constructor (versionMajor : Z) (client : bool) (options : CaptchaOptions)
  : Construction :=
  if versionMajor <? 14 then Unconfigured
  else if negb client then ProcessExit 1 NoClient
  else if JS.strictly_true (sendToTextChannel options)
          && negb (JS.truthy_string (channelID options))
       then ProcessExit 1 NoChannelID
  else if JS.strictly_true (addRoleOnSuccess options)
          && negb (JS.truthy_string (roleID options))
       then ProcessExit 1 NoRoleID
  else if JS.truthy_number (attempts options)
          && (match attempts options with Some a => a <? 1 | None => false end)
       then ProcessExit 1 BadAttempts
  else if JS.truthy_number (timeout options)
          && (match timeout options with Some t => t <? 1 | None => false end)
       then ProcessExit 1 BadTimeout
  else Constructed (applyDefaults options).

(** ** The platform as the session sees it *)

Record GuildMember := mkMember {
  userId : string;      (* member.user.id *)
  guildId : string      (* member.guild.id *)
}.

(** A destination; [accepts] tells whether the platform takes a message
    sent to it (a member with private messages closed has a direct
    channel that does not). *)
Record Channel := mkChannel {
  channelId : string;
  channelType : ChannelType;
  accepts : bool
}.

Record Message := mkMessage {
  authorId : string;    (* x.author.id *)
  content : string      (* String(x) *)
}.

(** The value under [customCaptcha.image]: nothing, a [Buffer], or a
    value that is not a [Buffer] (a path or a data URL). *)
Inductive ImageValue :=
| NoImage
| BufferImage (bytes : list Byte.byte)
| TextImage (s : string).

Record CaptchaImageData := mkCaptcha {
  image : ImageValue;
  text : string
}.

Inductive EventName := prompt | answer | success | timeout_ | failure.

(** The object passed to [emit]; a key the source does not write is
    [None]. *)
Record Payload := mkPayload {
  p_member : option GuildMember;
  p_responses : option (list string);
  p_response : option string;
  p_attempts : option Z;
  p_captchaText : option string;
  p_captchaOptions : option CaptchaOptions
}.

Inductive Outgoing :=
| PromptMessage (e : Embed) (attachment : ImageValue)  (* embeds: [e], files: [captcha.png] *)
| EmbedMessage (e : Embed).                            (* embeds: [e] *)

Inductive LogLine :=
| DirectMessagesLocked.   (* User's Direct Messages are Locked! *)

Inductive Effect :=
| Emit (name : EventName) (p : Payload)
| Send (c : Channel) (m : Outgoing)            (* channel.send, delivered *)
| SendRejected (c : Channel) (m : Outgoing)    (* channel.send, rejected *)
| EditPrompt (m : Outgoing)                    (* captchaEmbed.edit *)
| DeletePrompt                                 (* captchaEmbed.delete() *)
| DeleteResponse (m : Message)                 (* responses.first()?.delete() *)
| DeleteLater (ms : Z) (e : Embed)             (* setTimeout(() => msg.delete(), ms) *)
| AddRole (role : option string)               (* member.roles.add *)
| Kick (reason : string)                       (* member.kick *)
| Log (l : LogLine).

(** ** The attempt loop, [handleAttempt] *)

(** What the closure captures and never assigns. *)
Record Closure := mkClosure {
  member : GuildMember;
  channel : Channel;
  captcha : CaptchaImageData;
  captchaIncorrect : Embed;
  captchaCorrect : Embed;
  options : CaptchaOptions       (* captchaData.options *)
}.

(** The variables of [present] the loop assigns. *)
Record Vars := mkVars {
  attemptsLeft : Z;
  attemptsTaken : Z;
  captchaResponses : list string;
  captchaPrompt : Embed
}.

(** Where the loop stands. [handleAttempt] has no [return] of its own,
    so its promise carries no value; [Resolved b] says that the loop has
    ended and that [b] is what the callback of its last round
    returned. *)
Inductive Completion :=
| Awaiting                 (* suspended in [awaitMessages] *)
| Resolved (b : bool).     (* ended; the last callback returned [b] *)

Definition captchaFilter (m : GuildMember) (x : Message) : bool :=
  String.eqb (authorId x) (userId m).

(** [awaitMessages({ filter, max: 1, time })] over the messages that
    reach the channel before the time is up: the first one the filter
    lets through, if any. *)
Definition awaitMessages (filter : Message -> bool) (arrivals : list Message)
  : option Message :=
  find filter arrivals.

Definition isGuildText (c : Channel) : bool :=
  ChannelType_eqb (channelType c) GuildText.

(** Line 291: the response as it is compared and recorded. *)
Definition normalize (o : CaptchaOptions) (response : string) : string :=
  if negb (JS.strictly_true (caseSensitive o)) then JS.toLowerCase response
  else response.

(** Line 295: [answer === captcha.text]. *)
Definition matches (cl : Closure) (response : string) : bool :=
  String.eqb (normalize (options cl) response) (text (captcha cl)).

(** [this.options] as a listener finds it when an event is emitted.
    Lines 217-219 make [captchaPrompt] the very object under
    [customPromptEmbed] when there is one, so every [setFooter] and
    [setImage] on the prompt shows in the options; the other keys are
    never written after construction. *)
Definition liveOptions (o : CaptchaOptions) (shown : Embed) : CaptchaOptions :=
  match customPromptEmbed o with
  | Some _ =>
      mkOptions (roleID o) (channelID o) (sendToTextChannel o)
                (addRoleOnSuccess o) (kickOnFailure o) (caseSensitive o)
                (attempts o) (timeout o) (showAttemptCount o)
                (Some shown) (customSuccessEmbed o) (customFailureEmbed o)
  | None => o
  end.

Definition terminalPayload (cl : Closure) (v : Vars) : Payload :=
  mkPayload (Some (member cl)) (Some (captchaResponses v)) None
            (Some (attemptsTaken v)) (Some (text (captcha cl)))
            (Some (liveOptions (options cl) (captchaPrompt v))).

Definition answerPayload (cl : Closure) (v : Vars) (m : Message) : Payload :=
  mkPayload (Some (member cl)) None (Some (content m))
            (Some (attemptsTaken v)) (Some (text (captcha cl)))
            (Some (liveOptions (options cl) (captchaPrompt v))).

Definition when (b : bool) (es : list Effect) : list Effect :=
  if b then es else [].

(** Lines 272-277 and 346-351 after the prompt was dealt with: the
    failure embed, the kick, the delayed deletion. *)
Definition sendIncorrect (cl : Closure) : list Effect :=
  Send (channel cl) (EmbedMessage (captchaIncorrect cl))
  :: when (JS.truthy_bool (kickOnFailure (options cl))) [Kick "Failed to Pass CAPTCHA"]
  ++ when (isGuildText (channel cl)) [DeleteLater 3000 (captchaIncorrect cl)].

(** Lines 315-332: the counters move and the prompt is shown again.
    [attemptsLeft--] and [attemptsTaken++] are exact here; in the source
    they are exact while the counters stay between -2^53 and 2^53. *)
Definition nextAttempt (cl : Closure) (v : Vars) : Vars * list Effect :=
  let left := attemptsLeft v - 1 in
  let taken := attemptsTaken v + 1 in
  let show := JS.truthy_bool (showAttemptCount (options cl)) in
  if isGuildText (channel cl) && show then
    let p := setFooter (captchaPrompt v) (AttemptsLeftFooter left) in
    (mkVars left taken (captchaResponses v) p,
     [EditPrompt (PromptMessage p (image (captcha cl)))])
  else if negb (isGuildText (channel cl)) then
    let p := if show then setFooter (captchaPrompt v) (AttemptsLeftFooter left)
             else captchaPrompt v in
    (mkVars left taken (captchaResponses v) p,
     [Send (channel cl) (PromptMessage p (image (captcha cl)))])
  else (mkVars left taken (captchaResponses v) (captchaPrompt v), []).

(** Lines 264-277: no response arrived. *)
Definition onTimeout (cl : Closure) (v : Vars) : list Effect :=
  Emit timeout_ (terminalPayload cl v) :: DeletePrompt :: sendIncorrect cl.

(** Lines 282-288 and 293: the [answer] event, and the response message
    removed from a guild text channel. *)
Definition heard (cl : Closure) (v : Vars) (m : Message) : list Effect :=
  Emit answer (answerPayload cl v m)
  :: when (isGuildText (channel cl)) [DeleteResponse m].

(** Line 292: [captchaResponses.push(answer)]. *)
Definition record (cl : Closure) (v : Vars) (m : Message) : Vars :=
  mkVars (attemptsLeft v) (attemptsTaken v)
         (captchaResponses v ++ [normalize (options cl) (content m)])
         (captchaPrompt v).

(** Lines 297-311. *)
Definition onSuccess (cl : Closure) (v : Vars) : list Effect :=
  Emit success (terminalPayload cl v)
  :: when (JS.strictly_true (addRoleOnSuccess (options cl)))
          [AddRole (roleID (options cl))]
  ++ when (isGuildText (channel cl)) [DeletePrompt]
  ++ Send (channel cl) (EmbedMessage (captchaCorrect cl))
  :: when (isGuildText (channel cl)) [DeleteLater 3000 (captchaCorrect cl)].

(** Lines 338-351. *)
Definition onFailure (cl : Closure) (v : Vars) : list Effect :=
  Emit failure (terminalPayload cl v)
  :: when (isGuildText (channel cl)) [DeletePrompt]
  ++ sendIncorrect cl.

(** One element of [rounds] is what reaches the channel during one
    [awaitMessages]; the loop is suspended when the list is used up. *)
Fixpoint handleAttempt (cl : Closure) (v : Vars) (rounds : list (list Message))
  : list Effect * Vars * Completion :=
  match rounds with
  | [] => ([], v, Awaiting)
  | arrivals :: later =>
    match awaitMessages (captchaFilter (member cl)) arrivals with
    | None => (onTimeout cl v, v, Resolved false)
    | Some m =>
      let v1 := record cl v m in
      if matches cl (content m) then
        (heard cl v m ++ onSuccess cl v1, v1, Resolved true)
      else if attemptsLeft v1 >? 1 then
        let '(rest, v3, r) := handleAttempt cl (fst (nextAttempt cl v1)) later in
        (heard cl v m ++ snd (nextAttempt cl v1) ++ rest, v3, r)
      else
        (heard cl v m ++ onFailure cl v1, v1, Resolved false)
    end
  end.

(** ** Errors and the platform calls of [present] *)

Inductive Thrown :=
| ChannelUnavailable      (* Error("Channel not found or not accessible.") *)
| PlatformRejected        (* a platform call rejected its promise *)
| NullChannel.            (* TypeError: [send] on [null] *)

Inductive Result (A : Type) :=
| Ok (a : A)
| Throw (e : Thrown).

Arguments Ok {A} a.
Arguments Throw {A} e.

(** What the collaborators answer during one call of [present].
    [createCaptcha] is imported from a file that is not part of the
    sources at hand, so it is a field here. *)
Record Platform := mkPlatform {
  createCaptcha : Z -> string -> CaptchaImageData;
  createDM : option Channel;             (* member.user.createDM(); [None]: rejected *)
  resolve : string -> option Channel     (* guild.channels.resolve(id); [None]: null *)
}.

Definition resolveOpt (P : Platform) (id : option string) : option Channel :=
  match id with
  | Some i => resolve P i
  | None => None
  end.

(** [handleChannelType.ts]. *)
Definition handleChannelType (P : Platform) (o : CaptchaOptions) : Result Channel :=
  if negb (JS.truthy_string (channelID o)) then
    match createDM P with
    | Some c => Ok c
    | None => Throw PlatformRejected
    end
  else
    let channel :=
      if JS.strictly_true (sendToTextChannel o) then resolveOpt P (channelID o)
      else None in
    match channel with
    | Some c => Ok c
    | None => Throw ChannelUnavailable
    end.

(** [!customCaptcha.image]: an object, and so every [Buffer], is truthy. *)
Definition falsyImage (i : ImageValue) : bool :=
  match i with
  | NoImage => true
  | TextImage "" => true
  | _ => false
  end.

(** [Buffer.isBuffer]. *)
Definition isBuffer (i : ImageValue) : bool :=
  match i with
  | BufferImage _ => true
  | _ => false
  end.

(** Lines 183-185: the three early returns for a supplied
    [customCaptcha]. *)
Definition rejectsCustom (c : CaptchaImageData) : bool :=
  if falsyImage (image c) then true
  else if String.eqb (text c) "" then true
  else negb (isBuffer (image c)).

Definition upperCaseLetters : string := "ABCDEFGHIJKLMNOPQRSTUVWXYZ".

(** Lines 211-219. *)
Definition initialPrompt (o : CaptchaOptions) (left : Z) : Embed :=
  let p := match customPromptEmbed o with
           | Some e => e
           | None => mkEmbed PromptBody None None
           end in
  let p := if JS.truthy_bool (showAttemptCount o)
           then setFooter p (match attempts o with
                             | Some 1 => OneAttempt
                             | _ => AttemptsLeftFooter left
                             end)
           else p in
  setImage p "attachment://captcha.png".

(** Lines 189-191 and 217-219: the variables as the loop finds them. *)
Definition initialVars (o : CaptchaOptions) : Vars :=
  let left := JS.number_or (attempts o) 1 in
  mkVars left 1 [] (initialPrompt o left).

(** Lines 224-249: the channel the prompt went to, [None] when the
    callback returned after logging, or the error that left the
    callback. *)
Definition deliver (P : Platform) (o : CaptchaOptions) (m : Outgoing)
  : Result (option Channel) * list Effect :=
  let caught (tried : list Effect) :=
    let channel := resolveOpt P (channelID o) in
    if JS.truthy_string (channelID o) then
      match channel with
      | Some c =>
          if accepts c then (Ok (Some c), tried ++ [Send c m])
          else (Throw PlatformRejected, tried ++ [SendRejected c m])
      | None => (Throw NullChannel, tried)
      end
    else (Ok None, tried ++ [Log DirectMessagesLocked]) in
  let primary :=
    if JS.truthy_string (channelID o) && JS.strictly_true (sendToTextChannel o)
    then resolveOpt P (channelID o)
    else createDM P in
  match primary with
  | Some c =>
      if accepts c then (Ok (Some c), [Send c m])
      else caught [SendRejected c m]
  | None => caught []
  end.

(** One call of [present]: what its promise settles to, the effects up
    to that point, and the attempt loop it left running (its effects on
    [rounds], its variables and whether it has resolved). *)
Record PresentRun := mkRun {
  settled : Result bool;
  trace : list Effect;
  loop : option (list Effect * Vars * Completion)
}.

Definition chosenCaptcha (P : Platform) (o : CaptchaOptions)
    (customCaptcha : option CaptchaImageData) : CaptchaImageData :=
  match customCaptcha with
  | Some c => c
  | None => createCaptcha P 6 (if JS.truthy_bool (caseSensitive o) then ""
                               else upperCaseLetters)
  end.

Definition closureOf (o : CaptchaOptions) (m : GuildMember) (c : Channel)
    (cap : CaptchaImageData) : Closure :=
  mkClosure m c cap
    (match customFailureEmbed o with
     | Some e => e
     | None => mkEmbed (FailedBody (text cap)) None None
     end)
    (match customSuccessEmbed o with
     | Some e => e
     | None => mkEmbed SolvedBody None None
     end)
    o.

Definition promptPayload (cl : Closure) (v : Vars) : Payload :=
  mkPayload (Some (member cl)) None None None (Some (text (captcha cl)))
            (Some (liveOptions (options cl) (captchaPrompt v))).

Definition present (P : Platform) (o : CaptchaOptions)
    (m : option GuildMember) (customCaptcha : option CaptchaImageData)
    (rounds : list (list Message)) : PresentRun :=
  match m with
  | None => mkRun (Ok false) [] None
  | Some who =>
    if match customCaptcha with Some c => rejectsCustom c | None => false end
    then mkRun (Ok false) [] None
    else
      let cap := chosenCaptcha P o customCaptcha in
      let v := initialVars o in
      match handleChannelType P o with
      | Throw e => mkRun (Throw e) [] None
      | Ok _ =>
        match deliver P o (PromptMessage (captchaPrompt v) (image cap)) with
        | (Throw e, tried) => mkRun (Throw e) tried None
        | (Ok None, tried) => mkRun (Ok true) tried None
        | (Ok (Some c), tried) =>
          let cl := closureOf o who c cap in
          mkRun (Ok true)
                (tried ++ [Emit prompt (promptPayload cl v)])
                (Some (handleAttempt cl v rounds))
        end
      end
  end.

(** ** Reading a trace *)

Definition isTerminalName (n : EventName) : bool :=
  match n with
  | success | timeout_ | failure => true
  | _ => false
  end.

Definition isTerminalEmit (e : Effect) : bool :=
  match e with
  | Emit n _ => isTerminalName n
  | _ => false
  end.

(** The prompt shown or announced again: an edit of the prompt message,
    a new message carrying the prompt, or a [prompt] event. *)
Definition isReprompt (e : Effect) : bool :=
  match e with
  | EditPrompt _ => true
  | Send _ (PromptMessage _ _) => true
  | Emit prompt _ => true
  | _ => false
  end.


Definition isKick (e : Effect) : bool :=
  match e with
  | Kick _ => true
  | _ => false
  end.

(** The events of a trace, in order. *)
Fixpoint events (t : list Effect) : list (EventName * Payload) :=
  match t with
  | [] => []
  | Emit n p :: t' => (n, p) :: events t'
  | _ :: t' => events t'
  end.

(** The qualifying response of one round, as the loop records it. *)
Definition recorded (cl : Closure) (arrivals : list Message) : list string :=
  match awaitMessages (captchaFilter (member cl)) arrivals with
  | Some m => [normalize (options cl) (content m)]
  | None => []
  end.

(** A round whose qualifying response does not match. *)
Definition wrongRound (cl : Closure) (arrivals : list Message) : bool :=
  match awaitMessages (captchaFilter (member cl)) arrivals with
  | Some m => negb (matches cl (content m))
  | None => false
  end.

(** A round whose qualifying response matches. *)
Definition rightRound (cl : Closure) (arrivals : list Message) : bool :=
  match awaitMessages (captchaFilter (member cl)) arrivals with
  | Some m => matches cl (content m)
  | None => false
  end.

(** A round in which no qualifying message arrives. *)
Definition silentRound (cl : Closure) (arrivals : list Message) : bool :=
  match awaitMessages (captchaFilter (member cl)) arrivals with
  | Some _ => false
  | None => true
  end.

(** ** Concrete inputs *)

Definition alice : GuildMember := mkMember "1001" "guild-1".
Definition directChannel : Channel := mkChannel "dm-1001" DM true.
Definition lockedDirectChannel : Channel := mkChannel "dm-1001" DM false.
Definition lobby : Channel := mkChannel "123" GuildText true.
Definition png : ImageValue := BufferImage [Byte.x89; Byte.x50; Byte.x4e; Byte.x47].

Definition from (who : GuildMember) (s : string) : Message :=
  mkMessage (userId who) s.

(** Direct messages open, the guild knows channel "123", the generator
    answers with a fixed challenge. *)
Definition openPlatform : Platform :=
  mkPlatform (fun _ _ => mkCaptcha png "k7tplx")
             (Some directChannel)
             (fun id => if String.eqb id "123" then Some lobby else None).

(** The same with the member's direct messages closed. *)
Definition lockedPlatform : Platform :=
  mkPlatform (fun _ _ => mkCaptcha png "k7tplx")
             (Some lockedDirectChannel)
             (fun id => if String.eqb id "123" then Some lobby else None).

Definition withRole (r : string) : CaptchaOptions :=
  mkOptions (Some r) None None None None None None None None None None None.

Definition insensitive : CaptchaOptions :=
  mkOptions (Some "role-1") None None None None (Some false) None None None
            None None None.

Definition zeroAttempts : CaptchaOptions :=
  mkOptions (Some "role-1") None None None None None (Some 0) (Some 0) None
            None None None.

Definition withFallback : CaptchaOptions :=
  mkOptions (Some "role-1") (Some "123") None None None None None None None
            None None None.

Definition threeAttempts : CaptchaOptions :=
  mkOptions (Some "role-1") None None None None (Some true) (Some 3) None None
            None None None.

(** The session of the scenario: three attempts, case-sensitive,
    expected answer "K7TPLX", prompt delivered by direct message. *)
Definition scenarioClosure : Closure :=
  closureOf (applyDefaults threeAttempts) alice directChannel
            (mkCaptcha png "K7TPLX").

(** A session with two attempts in the guild channel "123". *)
Definition twoAttempts : CaptchaOptions :=
  mkOptions (Some "role-1") (Some "123") (Some true) None (Some true) None
            (Some 2) None None None None None.

Definition lobbyClosure : Closure :=
  closureOf (applyDefaults twoAttempts) alice lobby (mkCaptcha png "k7tplx").

(** ** Payload shapes *)

Definition given {A : Type} (x : option A) : bool :=
  match x with
  | Some _ => true
  | None => false
  end.

(** The five keys: member, responses, attempts, captchaText,
    captchaOptions. *)
Definition carriesAllFive (p : Payload) : bool :=
  given (p_member p) && given (p_responses p) && given (p_attempts p)
  && given (p_captchaText p) && given (p_captchaOptions p).

(** The keys each event is emitted with in the source. *)
Definition payloadShape (n : EventName) (p : Payload) : bool :=
  match n with
  | prompt =>
      given (p_member p) && given (p_captchaText p)
      && given (p_captchaOptions p)
      && negb (given (p_responses p)) && negb (given (p_attempts p))
      && negb (given (p_response p))
  | answer =>
      given (p_member p) && given (p_response p) && given (p_attempts p)
      && given (p_captchaText p) && given (p_captchaOptions p)
      && negb (given (p_responses p))
  | success | timeout_ | failure =>
      carriesAllFive p && negb (given (p_response p))
  end.

(** The effects of the attempt loop a call of [present] started. *)
Definition loopTrace (run : PresentRun) : list Effect :=
  match loop run with
  | Some (t, _, _) => t
  | None => []
  end.

(** Every event of one call, the loop's included. *)
Definition allEvents (run : PresentRun) : list (EventName * Payload) :=
  events (trace run ++ loopTrace run).

Definition shaped (np : EventName * Payload) : bool :=
  payloadShape (fst np) (snd np).

Definition nonTerminal (np : EventName * Payload) : bool :=
  negb (isTerminalName (fst np)).

(** ** Input validation as the specification words it *)

(** "Non-empty binary image payload": nothing, or a payload of length
    zero, is empty. *)
Definition emptyPayload (i : ImageValue) : bool :=
  match i with
  | NoImage => true
  | BufferImage [] => true
  | TextImage "" => true
  | _ => false
  end.

(** The custom challenges the specification has [present] reject: image
    payload empty or not binary, or answer text empty. *)
Definition specRejectsCustom (c : CaptchaImageData) : bool :=
  emptyPayload (image c) || negb (isBuffer (image c)) || String.eqb (text c) "".

(** A challenge whose image is a [Buffer] of length zero. *)
Definition blankCaptcha : CaptchaImageData := mkCaptcha (BufferImage []) "abc".

(** ** Clean-up, read off a trace *)


(** Contents of the responses announced by [answer]. *)
Definition answered (t : list Effect) : list string :=
  flat_map (fun e => match e with
                     | Emit answer p => match p_response p with
                                        | Some r => [r]
                                        | None => []
                                        end
                     | _ => []
                     end) t.

(** The success and failure embeds sent. *)
Definition confirmations (t : list Effect) : list Embed :=
  flat_map (fun e => match e with Send _ (EmbedMessage x) => [x] | _ => [] end) t.



(** The terminal events of a trace, by name. *)
Definition terminalNames (t : list Effect) : list EventName :=
  flat_map (fun e => match e with
                     | Emit n _ => if isTerminalName n then [n] else []
                     | _ => []
                     end) t.

(** ** More to read off a trace *)

(** The roles granted with [member.roles.add]. *)
Definition roleGrants (t : list Effect) : list (option string) :=
  flat_map (fun e => match e with AddRole r => [r] | _ => [] end) t.

(** The reasons of the calls of [member.kick]. *)
Definition kicks (t : list Effect) : list string :=
  flat_map (fun e => match e with Kick reason => [reason] | _ => [] end) t.

(** The channels [send] was called on, delivered or not. *)
Definition sendTargets (t : list Effect) : list Channel :=
  flat_map (fun e => match e with
                     | Send c _ | SendRejected c _ => [c]
                     | _ => []
                     end) t.

(** The [attempts] key of the [answer] events, in order. *)
Definition answerAttempts (t : list Effect) : list Z :=
  flat_map (fun e => match e with
                     | Emit answer p => match p_attempts p with
                                        | Some a => [a]
                                        | None => []
                                        end
                     | _ => []
                     end) t.

(** The prompt embeds sent as a new message. *)
Definition promptSends (t : list Effect) : list Embed :=
  flat_map (fun e => match e with
                     | Send _ (PromptMessage x _) => [x]
                     | _ => []
                     end) t.

(** The prompt embeds written over the prompt message. *)
Definition promptEdits (t : list Effect) : list Embed :=
  flat_map (fun e => match e with
                     | EditPrompt (PromptMessage x _) => [x]
                     | _ => []
                     end) t.

(** [n], [n+1], ..., one number per element of [l]. *)
Fixpoint countingFrom {A : Type} (n : Z) (l : list A) : list Z :=
  match l with
  | [] => []
  | _ :: l' => n :: countingFrom (n + 1) l'
  end.

(** [AttemptsLeft: n-1], [AttemptsLeft: n-2], ..., [k] footers. *)
Fixpoint countdownFooters (n : Z) (k : nat) : list (option Footer) :=
  match k with
  | O => []
  | S k' => Some (AttemptsLeftFooter (n - 1)) :: countdownFooters (n - 1) k'
  end.

(** An instance whose guild channel "123" refuses messages. *)
Definition deafLobby : Channel := mkChannel "123" GuildText false.

Definition deafPlatform : Platform :=
  mkPlatform (fun _ _ => mkCaptcha png "k7tplx")
             (Some directChannel)
             (fun id => if String.eqb id "123" then Some deafLobby else None).

(** Options with a negative number of attempts. *)
Definition negativeAttempts : CaptchaOptions :=
  mkOptions (Some "role-1") None None None None None (Some (-1)) None None
            None None None.

(** A direct-message session with three attempts, case-insensitive. *)
Definition foldingOptions : CaptchaOptions :=
  mkOptions (Some "role-1") None None None (Some true) (Some false) (Some 3)
            None None None None None.

Definition foldingClosure : Closure :=
  closureOf (applyDefaults foldingOptions) alice directChannel
            (mkCaptcha png "k7tplx").

(** The one channel a call of [present] writes to: the configured
    channel when there is a [channelID], the member's direct channel
    otherwise. *)
Definition destination (P : Platform) (o : CaptchaOptions) : option Channel :=
  if JS.truthy_string (channelID o) then resolveOpt P (channelID o)
  else createDM P.

(** A supplied custom challenge that passes lines 183-185, or none. *)
Definition acceptable (custom : option CaptchaImageData) : bool :=
  match custom with
  | Some c => negb (rejectsCustom c)
  | None => true
  end.

(** ** The comparison as the specification words it *)

(** "If [caseSensitive] is false, lowercase both sides before comparing;
    otherwise compare verbatim." *)
Definition specNormalize (o : CaptchaOptions) (s : string) : string :=
  match caseSensitive o with
  | Some false => JS.toLowerCase s
  | _ => s
  end.

Definition specEqual (o : CaptchaOptions) (expected response : string) : bool :=
  String.eqb (specNormalize o response) (specNormalize o expected).

(** A round whose qualifying response equals the expected answer in the
    specification's sense, and one whose qualifying response does not. *)
Definition equalRound (cl : Closure) (arrivals : list Message) : bool :=
  match awaitMessages (captchaFilter (member cl)) arrivals with
  | Some m => specEqual (options cl) (text (captcha cl)) (content m)
  | None => false
  end.

Definition unequalRound (cl : Closure) (arrivals : list Message) : bool :=
  match awaitMessages (captchaFilter (member cl)) arrivals with
  | Some m => negb (specEqual (options cl) (text (captcha cl)) (content m))
  | None => false
  end.

(** What the member typed in a round, if anything qualified. *)
Definition typed (who : GuildMember) (arrivals : list Message) : list string :=
  match awaitMessages (captchaFilter who) arrivals with
  | Some m => [content m]
  | None => []
  end.

(** ** The notifications as the amended C8 words them *)

(** The prompt embed while attempt number [a] is under way: as first
    rendered during the first attempt, and from the second attempt on
    with the footer "Attempts Left" brought up to date when the attempt
    count is shown. *)
Definition promptAt (o : CaptchaOptions) (a : Z) : Embed :=
  let first := initialPrompt o (JS.number_or (attempts o) 1) in
  if (a <=? 1) || negb (JS.truthy_bool (showAttemptCount o)) then first
  else setFooter first
                 (AttemptsLeftFooter (JS.number_or (attempts o) 1 - (a - 1))).

(** The active configuration during attempt [a]: the options, with the
    custom prompt embed (if any) as it is rendered by then. *)
Definition activeConfig (o : CaptchaOptions) (a : Z) : CaptchaOptions :=
  liveOptions o (promptAt o a).

(** [prompt]: member, expected answer, configuration. *)
Definition promptNotice (o : CaptchaOptions) (who : GuildMember)
    (cap : CaptchaImageData) : Payload :=
  mkPayload (Some who) None None None (Some (text cap)) (Some (activeConfig o 1)).

(** [answer]: member, the response as typed, the attempts taken so far,
    expected answer, configuration. *)
Definition answerNotice (o : CaptchaOptions) (who : GuildMember)
    (cap : CaptchaImageData) (a : Z) (reply : string) : Payload :=
  mkPayload (Some who) None (Some reply) (Some a) (Some (text cap))
            (Some (activeConfig o a)).

(** [success], [timeout], [failure]: member, the response history so
    far, the attempts taken so far, expected answer, configuration. *)
Definition terminalNotice (o : CaptchaOptions) (who : GuildMember)
    (cap : CaptchaImageData) (a : Z) (history : list string) : Payload :=
  mkPayload (Some who) (Some history) None (Some a) (Some (text cap))
            (Some (activeConfig o a)).

(** What the member typed round by round; [None] for a round without a
    qualifying message. *)
Definition replies (who : GuildMember) (rounds : list (list Message))
  : list (option string) :=
  map (fun arrivals =>
         option_map content (awaitMessages (captchaFilter who) arrivals))
      rounds.

(** The notifications of a session after its [prompt], from the replies:
    during attempt [a], with [history] recorded so far. Silence gives
    [timeout]; a reply gives [answer], then [success] if it is the
    expected answer once recorded, another attempt if [a] is below the
    configured attempts, [failure] otherwise. *)
Fixpoint notices (o : CaptchaOptions) (who : GuildMember) (cap : CaptchaImageData)
    (a : Z) (history : list string) (said : list (option string))
  : list (EventName * Payload) :=
  match said with
  | [] => []
  | None :: _ => [(timeout_, terminalNotice o who cap a history)]
  | Some reply :: later =>
      let kept := match caseSensitive o with
                  | Some true => reply
                  | _ => JS.toLowerCase reply
                  end in
      (answer, answerNotice o who cap a reply)
      :: (if String.eqb kept (text cap)
          then [(success, terminalNotice o who cap a (history ++ [kept]))]
          else if a <? JS.number_or (attempts o) 1
               then notices o who cap (a + 1) (history ++ [kept]) later
               else [(failure, terminalNotice o who cap a (history ++ [kept]))])
  end.


(** The counters are integers a JavaScript number holds exactly, and
    stay so for as many retries as [attemptsLeft] allows: on such
    counters [attemptsLeft--] and [attemptsTaken++] are exact in the
    source as they are here. *)
Definition exactCounters (v : Vars) : bool :=
  (- 2 ^ 53 <=? attemptsLeft v) && (attemptsLeft v <=? 2 ^ 53)
  && (- 2 ^ 53 <=? attemptsTaken v)
  && (attemptsTaken v + Z.max 1 (attemptsLeft v) <=? 2 ^ 53 + 1).

(** Three attempts and a custom prompt embed that comes with a footer
    of its own. *)
Definition brandedOptions : CaptchaOptions :=
  mkOptions (Some "role-1") None None None None None (Some 3) None None
            (Some (mkEmbed (CustomBody "welcome") (Some (OwnFooter "hello")) None))
            None None.

(** * Properties *)

(** ** Case folding *)

Lemma lower_unit_idempotent (c : ascii) :
  JS.lower_unit (JS.lower_unit c) = JS.lower_unit c.
Proof.
  destruct c as [[] [] [] [] [] [] [] []]; vm_compute; reflexivity.
Qed.

Lemma toLowerCase_idempotent (s : string) :
  JS.toLowerCase (JS.toLowerCase s) = JS.toLowerCase s.
Proof.
  induction s as [|c s IH]; simpl.
  - reflexivity.
  - rewrite lower_unit_idempotent, IH. reflexivity.
Qed.

Lemma matches_verbatim (cl : Closure) (r : string) :
  caseSensitive (options cl) = Some true ->
  matches cl r = String.eqb r (text (captcha cl)).
Proof.
  intros H. unfold matches, normalize. rewrite H. reflexivity.
Qed.

Lemma matches_folded (cl : Closure) (r : string) :
  caseSensitive (options cl) <> Some true ->
  matches cl r = String.eqb (JS.toLowerCase r) (text (captcha cl)).
Proof.
  intros H. unfold matches, normalize.
  destruct (caseSensitive (options cl)) as [[|]|]; simpl; congruence.
Qed.

(** Only the response is folded: an expected answer that is not its own
    lower case is matched by no response at all. *)
Lemma folded_answer_unreachable (cl : Closure) (r : string) :
  caseSensitive (options cl) <> Some true ->
  JS.toLowerCase (text (captcha cl)) <> text (captcha cl) ->
  matches cl r = false.
Proof.
  intros Hcs Hup. rewrite matches_folded by assumption.
  apply String.eqb_neq. intros E. apply Hup.
  rewrite <- E. apply toLowerCase_idempotent.
Qed.

(** ** The constructor *)

Lemma constructor_needs_channel (vm : Z) (o : CaptchaOptions) :
  14 <= vm ->
  sendToTextChannel o = Some true ->
  JS.truthy_string (channelID o) = false ->
  constructor vm true o = ProcessExit 1 NoChannelID.
Proof.
  intros Hv Hs Hc. unfold constructor.
  destruct (Z.ltb_spec vm 14) as [?|_]; [lia|].
  rewrite Hs, Hc. reflexivity.
Qed.

Lemma constructor_needs_role (vm : Z) (o : CaptchaOptions) :
  14 <= vm ->
  JS.strictly_true (sendToTextChannel o) && negb (JS.truthy_string (channelID o)) = false ->
  addRoleOnSuccess o = Some true ->
  JS.truthy_string (roleID o) = false ->
  constructor vm true o = ProcessExit 1 NoRoleID.
Proof.
  intros Hv Hs Ha Hr. unfold constructor.
  destruct (Z.ltb_spec vm 14) as [?|_]; [lia|].
  simpl negb at 1. cbv iota. rewrite Hs, Ha, Hr. reflexivity.
Qed.

Lemma constructor_needs_positive_attempts (vm n : Z) (o : CaptchaOptions) :
  14 <= vm ->
  JS.strictly_true (sendToTextChannel o) && negb (JS.truthy_string (channelID o)) = false ->
  JS.strictly_true (addRoleOnSuccess o) && negb (JS.truthy_string (roleID o)) = false ->
  attempts o = Some n -> n < 0 ->
  constructor vm true o = ProcessExit 1 BadAttempts.
Proof.
  intros Hv Hs Ha Hn Hneg. unfold constructor.
  destruct (Z.ltb_spec vm 14) as [?|_]; [lia|].
  simpl negb at 1. cbv iota. rewrite Hs, Ha, Hn. simpl.
  destruct (Z.eqb_spec n 0) as [?|_]; [lia|].
  destruct (Z.ltb_spec n 1) as [_|?]; [reflexivity|lia].
Qed.

(** Zero is falsy: the two range checks are skipped for it and the
    default takes its place. *)
Lemma constructor_zero_is_unset (vm : Z) (o : CaptchaOptions) :
  attempts o = Some 0 -> timeout o = Some 0 ->
  forall o', constructor vm true o = Constructed o' ->
  attempts o' = Some 1 /\ timeout o' = Some 60000.
Proof.
  intros Ha Ht o'. unfold constructor. rewrite Ha, Ht. simpl.
  repeat match goal with
         | |- context [if ?b then _ else _] => destruct b
         end; try discriminate.
  intros [= <-]. unfold applyDefaults; simpl. rewrite Ha, Ht. split; reflexivity.
Qed.

(** ** Induction over the attempt loop *)

Section LoopInduction.

Variable cl : Closure.
Variable Q : Vars -> list (list Message) -> list Effect * Vars * Completion -> Prop.

Hypothesis Q_suspended : forall v, Q v [] ([], v, Awaiting).

Hypothesis Q_timeout : forall v arrivals later,
  awaitMessages (captchaFilter (member cl)) arrivals = None ->
  Q v (arrivals :: later) (onTimeout cl v, v, Resolved false).

Hypothesis Q_success : forall v arrivals later m,
  awaitMessages (captchaFilter (member cl)) arrivals = Some m ->
  matches cl (content m) = true ->
  Q v (arrivals :: later)
    (heard cl v m ++ onSuccess cl (record cl v m), record cl v m, Resolved true).

Hypothesis Q_retry : forall v arrivals later m rest v3 r,
  awaitMessages (captchaFilter (member cl)) arrivals = Some m ->
  matches cl (content m) = false ->
  1 < attemptsLeft v ->
  handleAttempt cl (fst (nextAttempt cl (record cl v m))) later = (rest, v3, r) ->
  Q (fst (nextAttempt cl (record cl v m))) later (rest, v3, r) ->
  Q v (arrivals :: later)
    (heard cl v m ++ snd (nextAttempt cl (record cl v m)) ++ rest, v3, r).

Hypothesis Q_failure : forall v arrivals later m,
  awaitMessages (captchaFilter (member cl)) arrivals = Some m ->
  matches cl (content m) = false ->
  attemptsLeft v <= 1 ->
  Q v (arrivals :: later)
    (heard cl v m ++ onFailure cl (record cl v m), record cl v m, Resolved false).

Lemma handleAttempt_cases :
  forall rounds v, Q v rounds (handleAttempt cl v rounds).
Proof.
  induction rounds as [|arrivals later IH]; intros v; simpl.
  - apply Q_suspended.
  - destruct (awaitMessages (captchaFilter (member cl)) arrivals) as [m|] eqn:Hm.
    + destruct (matches cl (content m)) eqn:Hok.
      * eapply Q_success; eassumption.
      * change (attemptsLeft (record cl v m)) with (attemptsLeft v).
        destruct (Z.gtb_spec (attemptsLeft v) 1) as [Hgt|Hle].
        -- specialize (IH (fst (nextAttempt cl (record cl v m)))).
           destruct (handleAttempt cl (fst (nextAttempt cl (record cl v m))) later)
             as [[rest v3] r] eqn:Hrest.
           eapply Q_retry; eassumption.
        -- eapply Q_failure; try eassumption.
    + apply Q_timeout. assumption.
Qed.

End LoopInduction.

(** A property of every effect of every piece holds of the whole trace. *)
Lemma handleAttempt_Forall (cl : Closure) (phi : Effect -> Prop) :
  (forall v, Forall phi (onTimeout cl v)) ->
  (forall v m, Forall phi (heard cl v m)) ->
  (forall v, Forall phi (onSuccess cl v)) ->
  (forall v, Forall phi (onFailure cl v)) ->
  (forall v, Forall phi (snd (nextAttempt cl v))) ->
  forall rounds v, Forall phi (fst (fst (handleAttempt cl v rounds))).
Proof.
  intros Ht Hh Hs Hf Hn rounds v.
  apply (handleAttempt_cases cl (fun _ _ res => Forall phi (fst (fst res))));
    intros; cbn [fst]; repeat (apply Forall_app; split); auto.
Qed.

(** ** What a call of [present] can be *)

(** The loop a call starts is [handleAttempt] on the initial variables,
    with the instance's options in its closure. *)
Lemma present_loop_inv P o m custom rounds lp :
  loop (present P o m custom rounds) = Some lp ->
  exists who c cap,
    m = Some who /\
    lp = handleAttempt (closureOf o who c cap) (initialVars o) rounds /\
    settled (present P o m custom rounds) = Ok true /\
    exists tried,
      trace (present P o m custom rounds)
      = tried ++ [Emit prompt (promptPayload (closureOf o who c cap)
                                             (initialVars o))] /\
      events tried = [].
Proof.
  unfold present.
  destruct m as [who|]; [|discriminate].
  destruct (match custom with Some c => rejectsCustom c | None => false end);
    [discriminate|].
  destruct (handleChannelType P o); [|discriminate].
  destruct (deliver P o _) as [[[c|]|e] tried] eqn:Hd; try discriminate.
  simpl. intros [= <-].
  exists who, c, (chosenCaptcha P o custom). repeat split.
  exists tried. split; [reflexivity|].
  revert Hd. unfold deliver.
  repeat match goal with
         | |- context [match ?x with _ => _ end] => destruct x
         end; intros Heq; inversion Heq; subst; reflexivity.
Qed.

(** A call that starts no loop emits nothing. *)
Lemma present_no_loop_no_event P o m custom rounds :
  loop (present P o m custom rounds) = None ->
  allEvents (present P o m custom rounds) = [].
Proof.
  intros H. unfold allEvents, loopTrace. rewrite H, app_nil_r. revert H.
  unfold present.
  destruct m as [who|]; [|reflexivity].
  destruct (match custom with Some c => rejectsCustom c | None => false end);
    [reflexivity|].
  destruct (handleChannelType P o); [|reflexivity].
  destruct (deliver P o _) as [[[c|]|e] tried] eqn:Hd; simpl; try discriminate;
    intros _; revert Hd; unfold deliver;
    repeat match goal with
           | |- context [match ?x with _ => _ end] => destruct x
           end; intros Heq; inversion Heq; subst; reflexivity.
Qed.

(** ** Pieces of the trace, effect by effect *)

Ltac split_flags :=
  repeat match goal with
         | |- context [if ?b then _ else _] => destruct b eqn:?
         end.

Ltac piecewise :=
  intros;
  unfold onTimeout, onSuccess, onFailure, heard, sendIncorrect, nextAttempt, when;
  split_flags; cbn [fst snd app]; repeat constructor.

Lemma existsb_none {A : Type} (f : A -> bool) (l : list A) :
  Forall (fun x => f x = false) l -> existsb f l = false.
Proof.
  induction 1 as [|x l Hx _ IH]; simpl.
  - reflexivity.
  - rewrite Hx, IH. reflexivity.
Qed.

Lemma no_kick_unless_configured (cl : Closure) :
  JS.truthy_bool (kickOnFailure (options cl)) = false ->
  forall rounds v,
    Forall (fun e => isKick e = false) (fst (fst (handleAttempt cl v rounds))).
Proof.
  intros Hk. apply handleAttempt_Forall; try (piecewise; fail).
  - intros v. unfold onTimeout, sendIncorrect, when. rewrite Hk.
    split_flags; cbn [app]; repeat constructor.
  - intros v. unfold onFailure, sendIncorrect, when. rewrite Hk.
    split_flags; cbn [app]; repeat constructor.
Qed.

(** ** C1: case folding of the comparison *)

(** C1 (defect of the code). With [caseSensitive: false] only the
    member's response is lowercased; the expected answer is compared as
    it stands. For the custom challenge with answer "AB3F9Q" neither
    "ab3f9q" nor "AB3F9Q" itself is judged a match: both sessions end in
    [failure]. *)
Theorem C1_uppercase_answer_is_never_matched :
  constructor 14 true insensitive = Constructed (applyDefaults insensitive)
  /\ caseSensitive (applyDefaults insensitive) = Some false
  /\ (forall who c img e1 e2,
        matches (mkClosure who c (mkCaptcha img "AB3F9Q") e1 e2
                           (applyDefaults insensitive)) "ab3f9q" = false)
  /\ (exists t v,
        loop (present openPlatform (applyDefaults insensitive) (Some alice)
                      (Some (mkCaptcha png "AB3F9Q")) [[from alice "ab3f9q"]])
        = Some (t, v, Resolved false)
        /\ map fst (events t) = [answer; failure]
        /\ captchaResponses v = ["ab3f9q"])
  /\ (exists t v,
        loop (present openPlatform (applyDefaults insensitive) (Some alice)
                      (Some (mkCaptcha png "AB3F9Q")) [[from alice "AB3F9Q"]])
        = Some (t, v, Resolved false)
        /\ map fst (events t) = [answer; failure]
        /\ captchaResponses v = ["ab3f9q"]).
Proof.
  split; [reflexivity|]. split; [reflexivity|]. split; [reflexivity|].
  split; eexists; eexists; vm_compute; repeat split.
Qed.

(** ** C2: defaults of the options *)

(** C2 (defect of the code). The constructor fills in [addRoleOnSuccess],
    [attempts], [caseSensitive], [timeout] and [showAttemptCount], and
    leaves [kickOnFailure] undefined: an instance built from [{}] never
    kicks, whatever the session does. *)
Theorem C2_kickOnFailure_has_no_default :
  constructor 14 true emptyOptions = Constructed (applyDefaults emptyOptions)
  /\ kickOnFailure (applyDefaults emptyOptions) = None
  /\ sendToTextChannel (applyDefaults emptyOptions) = None
  /\ addRoleOnSuccess (applyDefaults emptyOptions) = Some true
  /\ caseSensitive (applyDefaults emptyOptions) = Some true
  /\ attempts (applyDefaults emptyOptions) = Some 1
  /\ timeout (applyDefaults emptyOptions) = Some 60000
  /\ showAttemptCount (applyDefaults emptyOptions) = Some true
  /\ (forall P m custom rounds,
        existsb isKick
          (loopTrace (present P (applyDefaults emptyOptions) m custom rounds))
        = false)
  /\ exists t v,
       loop (present openPlatform (applyDefaults emptyOptions) (Some alice) None [[]])
       = Some (t, v, Resolved false)
       /\ map fst (events t) = [timeout_]
       /\ existsb isKick t = false.
Proof.
  repeat (split; [reflexivity|]). split.
  - intros P m custom rounds. unfold loopTrace.
    destruct (loop (present P _ m custom rounds)) as [[[t v] r]|] eqn:Hl;
      [|reflexivity].
    apply present_loop_inv in Hl as (who & c & cap & _ & Hl & _).
    pose proof (no_kick_unless_configured
                  (closureOf (applyDefaults emptyOptions) who c cap)
                  eq_refl rounds (initialVars (applyDefaults emptyOptions))) as HF.
    rewrite <- Hl in HF. cbn [fst] in HF.
    apply existsb_none. exact HF.
  - eexists; eexists; vm_compute; repeat split.
Qed.

(** ** C3: options the constructor refuses *)

(** C3 (defect of the code). Three of the violations pass the
    constructor: [addRoleOnSuccess] left to its default [true] with no
    [roleID] (the check runs before the default is filled in), and
    [attempts: 0] and [timeout: 0] (zero is falsy, so the range checks
    are skipped). The instance built from [{}] goes on to present, and on
    a right answer calls [roles.add] with an undefined role. *)
Theorem C3_violations_that_construct :
  constructor 14 true emptyOptions = Constructed (applyDefaults emptyOptions)
  /\ addRoleOnSuccess (applyDefaults emptyOptions) = Some true
  /\ roleID (applyDefaults emptyOptions) = None
  /\ constructor 14 true zeroAttempts = Constructed (applyDefaults zeroAttempts)
  /\ attempts zeroAttempts = Some 0
  /\ timeout zeroAttempts = Some 0
  /\ attempts (applyDefaults zeroAttempts) = Some 1
  /\ timeout (applyDefaults zeroAttempts) = Some 60000
  /\ In (AddRole None)
        (loopTrace (present openPlatform (applyDefaults emptyOptions) (Some alice)
                            None [[from alice "k7tplx"]])).
Proof.
  repeat (split; [reflexivity|]). vm_compute. tauto.
Qed.

(** ** C7: where the prompt goes *)

(** With a [channelID] and without [sendToTextChannel: true] the
    resolver throws, whatever is reachable. *)
Lemma handleChannelType_fallback_only (P : Platform) (o : CaptchaOptions) :
  JS.truthy_string (channelID o) = true ->
  JS.strictly_true (sendToTextChannel o) = false ->
  handleChannelType P o = Throw ChannelUnavailable.
Proof.
  intros Hc Hs. unfold handleChannelType. rewrite Hc, Hs. reflexivity.
Qed.

(** C7 (defect of the code). With [channelID: "123"] given as the
    fallback for closed direct messages and [sendToTextChannel] unset,
    [handleChannelType] throws "Channel not found or not accessible."
    although both the direct channel and channel "123" are reachable;
    [present] rejects before anything is sent, also when the direct
    messages are closed and the fallback would be needed. *)
Theorem C7_fallback_configuration_is_rejected :
  constructor 14 true withFallback = Constructed (applyDefaults withFallback)
  /\ createDM openPlatform = Some directChannel
  /\ accepts directChannel = true
  /\ resolve openPlatform "123" = Some lobby
  /\ accepts lobby = true
  /\ handleChannelType openPlatform (applyDefaults withFallback)
     = Throw ChannelUnavailable
  /\ (forall rounds,
        present openPlatform (applyDefaults withFallback) (Some alice) None rounds
        = mkRun (Throw ChannelUnavailable) [] None)
  /\ (forall rounds,
        present lockedPlatform (applyDefaults withFallback) (Some alice) None rounds
        = mkRun (Throw ChannelUnavailable) [] None).
Proof.
  repeat (split; [reflexivity|]). split; intros rounds; reflexivity.
Qed.

(** ** The counters *)

Lemma nextAttempt_vars (cl : Closure) (v : Vars) :
  attemptsLeft (fst (nextAttempt cl v)) = attemptsLeft v - 1
  /\ attemptsTaken (fst (nextAttempt cl v)) = attemptsTaken v + 1
  /\ captchaResponses (fst (nextAttempt cl v)) = captchaResponses v.
Proof.
  unfold nextAttempt. split_flags; cbn; repeat split.
Qed.

Lemma nextAttempt_no_terminal (cl : Closure) (v : Vars) :
  filter isTerminalEmit (snd (nextAttempt cl v)) = [].
Proof.
  unfold nextAttempt. split_flags; reflexivity.
Qed.

Lemma heard_no_terminal (cl : Closure) (v : Vars) (m : Message) :
  filter isTerminalEmit (heard cl v m) = [].
Proof.
  unfold heard, when. split_flags; reflexivity.
Qed.

Lemma heard_no_reprompt (cl : Closure) (v : Vars) (m : Message) :
  filter isReprompt (heard cl v m) = [].
Proof.
  unfold heard, when. split_flags; reflexivity.
Qed.

Lemma onTimeout_terminal (cl : Closure) (v : Vars) :
  filter isTerminalEmit (onTimeout cl v) = [Emit timeout_ (terminalPayload cl v)]
  /\ filter isReprompt (onTimeout cl v) = [].
Proof.
  unfold onTimeout, sendIncorrect, when. split_flags; split; reflexivity.
Qed.

Lemma onSuccess_terminal (cl : Closure) (v : Vars) :
  filter isTerminalEmit (onSuccess cl v) = [Emit success (terminalPayload cl v)]
  /\ filter isReprompt (onSuccess cl v) = [].
Proof.
  unfold onSuccess, when. split_flags; split; reflexivity.
Qed.

Lemma onFailure_terminal (cl : Closure) (v : Vars) :
  filter isTerminalEmit (onFailure cl v) = [Emit failure (terminalPayload cl v)]
  /\ filter isReprompt (onFailure cl v) = [].
Proof.
  unfold onFailure, sendIncorrect, when. split_flags; split; reflexivity.
Qed.

Lemma wrongRound_inv (cl : Closure) (arrivals : list Message) :
  wrongRound cl arrivals = true ->
  exists m, awaitMessages (captchaFilter (member cl)) arrivals = Some m
            /\ matches cl (content m) = false
            /\ recorded cl arrivals = [normalize (options cl) (content m)].
Proof.
  unfold wrongRound, recorded.
  destruct (awaitMessages _ arrivals) as [m|]; [|discriminate].
  intros H. exists m. apply negb_true_iff in H. auto.
Qed.

Lemma rightRound_inv (cl : Closure) (arrivals : list Message) :
  rightRound cl arrivals = true ->
  exists m, awaitMessages (captchaFilter (member cl)) arrivals = Some m
            /\ matches cl (content m) = true
            /\ recorded cl arrivals = [normalize (options cl) (content m)].
Proof.
  unfold rightRound, recorded.
  destruct (awaitMessages _ arrivals) as [m|]; [|discriminate].
  intros H. exists m. auto.
Qed.

(** One wrong response with attempts to spare: the loop goes round. *)
Lemma handleAttempt_retry (cl : Closure) (v : Vars) arrivals later m :
  awaitMessages (captchaFilter (member cl)) arrivals = Some m ->
  matches cl (content m) = false ->
  1 < attemptsLeft v ->
  handleAttempt cl v (arrivals :: later)
  = let '(rest, v3, r) :=
      handleAttempt cl (fst (nextAttempt cl (record cl v m))) later in
    (heard cl v m ++ snd (nextAttempt cl (record cl v m)) ++ rest, v3, r).
Proof.
  intros Hm Hw Hl. simpl. rewrite Hm, Hw.
  change (attemptsLeft (record cl v m)) with (attemptsLeft v).
  destruct (Z.gtb_spec (attemptsLeft v) 1); [reflexivity|lia].
Qed.

(** One wrong response on the last attempt. *)
Lemma handleAttempt_last (cl : Closure) (v : Vars) arrivals later m :
  awaitMessages (captchaFilter (member cl)) arrivals = Some m ->
  matches cl (content m) = false ->
  attemptsLeft v <= 1 ->
  handleAttempt cl v (arrivals :: later)
  = (heard cl v m ++ onFailure cl (record cl v m), record cl v m, Resolved false).
Proof.
  intros Hm Hw Hl. simpl. rewrite Hm, Hw.
  change (attemptsLeft (record cl v m)) with (attemptsLeft v).
  destruct (Z.gtb_spec (attemptsLeft v) 1); [lia|reflexivity].
Qed.

Lemma handleAttempt_right (cl : Closure) (v : Vars) arrivals later m :
  awaitMessages (captchaFilter (member cl)) arrivals = Some m ->
  matches cl (content m) = true ->
  handleAttempt cl v (arrivals :: later)
  = (heard cl v m ++ onSuccess cl (record cl v m), record cl v m, Resolved true).
Proof.
  intros Hm Hw. simpl. rewrite Hm, Hw. reflexivity.
Qed.

Lemma handleAttempt_silent (cl : Closure) (v : Vars) arrivals later :
  silentRound cl arrivals = true ->
  handleAttempt cl v (arrivals :: later) = (onTimeout cl v, v, Resolved false).
Proof.
  unfold silentRound. intros Hs. simpl.
  destruct (awaitMessages _ arrivals); [discriminate|reflexivity].
Qed.

(** Wrong responses, fewer than the attempts left, move the counters
    and leave the loop running on what follows. *)
Lemma handleAttempt_wrong_prefix (cl : Closure) :
  forall wrongs v rest,
    forallb (wrongRound cl) wrongs = true ->
    Z.of_nat (List.length wrongs) < attemptsLeft v ->
    exists v' pre,
      attemptsLeft v' = attemptsLeft v - Z.of_nat (List.length wrongs)
      /\ attemptsTaken v' = attemptsTaken v + Z.of_nat (List.length wrongs)
      /\ captchaResponses v' = captchaResponses v ++ flat_map (recorded cl) wrongs
      /\ filter isTerminalEmit pre = []
      /\ (wrongs = [] -> v' = v /\ pre = [])
      /\ handleAttempt cl v (wrongs ++ rest)
         = let '(t, vf, r) := handleAttempt cl v' rest in (pre ++ t, vf, r).
Proof.
  induction wrongs as [|arrivals wrongs IH]; intros v rest Hall Hlen.
  - exists v, []. cbn [List.length flat_map app]. rewrite app_nil_r.
    repeat split; try lia.
    destruct (handleAttempt cl v rest) as [[t vf] r]. reflexivity.
  - cbn [forallb] in Hall. apply andb_true_iff in Hall as [Hw Hall].
    apply wrongRound_inv in Hw as (m & Hm & Hno & Hrec).
    cbn [List.length] in Hlen. rewrite Nat2Z.inj_succ in Hlen.
    destruct (nextAttempt_vars cl (record cl v m)) as (Hl & Ht & Hr).
    cbn [record attemptsLeft attemptsTaken captchaResponses] in Hl, Ht, Hr.
    destruct (IH (fst (nextAttempt cl (record cl v m))) rest Hall)
      as (v' & pre & Hl' & Ht' & Hr' & Hpre & _ & Hrun).
    { rewrite Hl. lia. }
    exists v', (heard cl v m ++ snd (nextAttempt cl (record cl v m)) ++ pre).
    cbn [List.length flat_map]. rewrite Nat2Z.inj_succ, Hrec.
    repeat split.
    + rewrite Hl', Hl. lia.
    + rewrite Ht', Ht. lia.
    + rewrite Hr', Hr, <- app_assoc. reflexivity.
    + rewrite !filter_app, heard_no_terminal, nextAttempt_no_terminal, Hpre.
      reflexivity.
    + discriminate.
    + discriminate.
    + cbn [app]. rewrite (handleAttempt_retry cl v arrivals _ m Hm Hno) by lia.
      rewrite Hrun.
      destruct (handleAttempt cl v' rest) as [[t vf] r].
      rewrite <- !app_assoc. reflexivity.
Qed.

(** Enough rounds settle the loop: it resolves within as many rounds as
    there are attempts left (one, when none are). *)
Lemma handleAttempt_resolves (cl : Closure) :
  forall rounds v,
    Z.max 1 (attemptsLeft v) <= Z.of_nat (List.length rounds) ->
    exists t v' b, handleAttempt cl v rounds = (t, v', Resolved b).
Proof.
  induction rounds as [|arrivals later IH]; intros v Hlen.
  - cbn [List.length] in Hlen. lia.
  - cbn [List.length] in Hlen. rewrite Nat2Z.inj_succ in Hlen.
    destruct (awaitMessages (captchaFilter (member cl)) arrivals) as [m|] eqn:Hm.
    + destruct (matches cl (content m)) eqn:Hok.
      * rewrite (handleAttempt_right cl v arrivals later m Hm Hok). eauto.
      * destruct (Z_lt_le_dec 1 (attemptsLeft v)) as [Hgt|Hle].
        -- rewrite (handleAttempt_retry cl v arrivals later m Hm Hok Hgt).
           destruct (nextAttempt_vars cl (record cl v m)) as (Hl & _).
           cbn [record attemptsLeft] in Hl.
           destruct (IH (fst (nextAttempt cl (record cl v m)))) as (t & v' & b & E).
           { rewrite Hl. lia. }
           rewrite E. eauto.
        -- rewrite (handleAttempt_last cl v arrivals later m Hm Hok Hle). eauto.
    + rewrite handleAttempt_silent; [eauto|].
      unfold silentRound. rewrite Hm. reflexivity.
Qed.

(** ** C4: attempts used up *)

(** C4. With [attempts = N >= 1], N rounds that each bring a
    non-matching response of the member end the loop in [failure], the
    only terminal event, with [attemptsTaken = N] and N recorded
    responses, whatever follows; with N = 1 the trace holds no edit of
    the prompt, no second prompt message and no [prompt] event. *)
Theorem C4_exhausted_after_N_wrong_responses
    (cl : Closure) (N : Z) (wrongs later : list (list Message)) :
  1 <= N ->
  attempts (options cl) = Some N ->
  Z.of_nat (List.length wrongs) = N ->
  forallb (wrongRound cl) wrongs = true ->
  exists t v,
    handleAttempt cl (initialVars (options cl)) (wrongs ++ later)
    = (t, v, Resolved false)
    /\ filter isTerminalEmit t = [Emit failure (terminalPayload cl v)]
    /\ attemptsTaken v = N
    /\ Z.of_nat (List.length (captchaResponses v)) = N
    /\ captchaResponses v = flat_map (recorded cl) wrongs
    /\ p_attempts (terminalPayload cl v) = Some N
    /\ (N = 1 -> filter isReprompt t = []).
Proof.
  intros HN Hatt Hlen Hall.
  assert (Hleft : attemptsLeft (initialVars (options cl)) = N).
  { unfold initialVars. cbn [attemptsLeft]. rewrite Hatt. unfold JS.number_or.
    destruct (Z.eqb_spec N 0); [lia|reflexivity]. }
  destruct (exists_last (l := wrongs)) as (ws & final & ->).
  { intros ->. cbn [List.length] in Hlen. lia. }
  rewrite length_app, Nat2Z.inj_add in Hlen. cbn [List.length] in Hlen.
  rewrite forallb_app in Hall. apply andb_true_iff in Hall as [Hws Hfinal].
  cbn [forallb] in Hfinal. rewrite andb_true_r in Hfinal.
  apply wrongRound_inv in Hfinal as (m & Hm & Hno & Hrec).
  destruct (handleAttempt_wrong_prefix cl ws (initialVars (options cl))
              (final :: later) Hws)
    as (v' & pre & Hl' & Ht' & Hr' & Hpre & Hnil & Hrun).
  { rewrite Hleft. lia. }
  rewrite <- app_assoc. cbn [app]. rewrite Hrun.
  rewrite (handleAttempt_last cl v' final later m Hm Hno) by (rewrite Hl', Hleft; lia).
  exists (pre ++ heard cl v' m ++ onFailure cl (record cl v' m)), (record cl v' m).
  assert (Htaken : attemptsTaken (record cl v' m) = N).
  { cbn [record attemptsTaken]. rewrite Ht'. cbn [initialVars attemptsTaken]. lia. }
  assert (Hresp : captchaResponses (record cl v' m)
                  = flat_map (recorded cl) (ws ++ [final])).
  { cbn [record captchaResponses]. rewrite Hr', flat_map_app.
    cbn [initialVars captchaResponses flat_map app]. rewrite Hrec, app_nil_r.
    reflexivity. }
  repeat split.
  - rewrite !filter_app, Hpre, heard_no_terminal.
    rewrite (proj1 (onFailure_terminal cl _)). reflexivity.
  - exact Htaken.
  - rewrite Hresp, flat_map_app, length_app. cbn [flat_map]. rewrite Hrec.
    cbn [app List.length]. rewrite Nat2Z.inj_add.
    assert (Hcount : List.length (flat_map (recorded cl) ws) = List.length ws).
    { clear - Hws. induction ws as [|a ws IH]; [reflexivity|].
      cbn [forallb] in Hws. apply andb_true_iff in Hws as [Ha Hws].
      apply wrongRound_inv in Ha as (m' & _ & _ & Ha).
      cbn [flat_map]. rewrite Ha. cbn [app List.length].
      rewrite (IH Hws). reflexivity. }
    rewrite Hcount. lia.
  - exact Hresp.
  - cbn [terminalPayload p_attempts]. rewrite Htaken. reflexivity.
  - intros ->. assert (ws = []) as -> by (destruct ws; [reflexivity|cbn [List.length] in Hlen; lia]).
    destruct (Hnil eq_refl) as [-> ->]. cbn [app].
    rewrite filter_app, heard_no_reprompt.
    exact (proj2 (onFailure_terminal cl _)).
Qed.

(** Two attempts in a guild text channel, two wrong responses (the
    second differs from the answer in case only). *)
Lemma C4_two_wrong_in_the_lobby :
  1 <= 2
  /\ attempts (options lobbyClosure) = Some 2
  /\ exists t v,
       handleAttempt lobbyClosure (initialVars (options lobbyClosure))
                     ([[from alice "nope"]; [from alice "K7TPLX"]] ++ [])
       = (t, v, Resolved false)
       /\ filter isTerminalEmit t = [Emit failure (terminalPayload lobbyClosure v)]
       /\ attemptsTaken v = 2
       /\ Z.of_nat (List.length (captchaResponses v)) = 2.
Proof.
  split; [lia|]. split; [reflexivity|].
  destruct (C4_exhausted_after_N_wrong_responses lobbyClosure 2
              [[from alice "nope"]; [from alice "K7TPLX"]] [])
    as (t & v & H1 & H2 & H3 & H4 & _);
    [lia | reflexivity | reflexivity | reflexivity |].
  exists t, v. repeat split; assumption.
Defined.

(** ** C5: no response in time *)

(** C5. A round in which no message of the member arrives resolves the
    loop to [false] with [timeout] as the only terminal event, from any
    variables (so with any number of attempts left) and without reading
    the rounds that follow; nothing is shown again; and in the first
    round the recorded responses are empty. *)
Theorem C5_timeout_ends_the_session
    (cl : Closure) (v : Vars) (arrivals : list Message)
    (later : list (list Message)) :
  silentRound cl arrivals = true ->
  handleAttempt cl v (arrivals :: later) = (onTimeout cl v, v, Resolved false)
  /\ handleAttempt cl v (arrivals :: later) = handleAttempt cl v [arrivals]
  /\ filter isTerminalEmit (onTimeout cl v) = [Emit timeout_ (terminalPayload cl v)]
  /\ filter isReprompt (onTimeout cl v) = []
  /\ p_responses (terminalPayload cl v) = Some (captchaResponses v)
  /\ p_responses (terminalPayload cl (initialVars (options cl))) = Some [].
Proof.
  intros Hs.
  rewrite (handleAttempt_silent cl v arrivals later Hs).
  rewrite (handleAttempt_silent cl v arrivals [] Hs).
  destruct (onTimeout_terminal cl v) as [Ht Hr].
  repeat split; assumption.
Qed.

(** Three attempts left and only a stranger writes: the loop times out
    and never reads the member's later answer. *)
Lemma C5_silence_with_three_attempts :
  silentRound scenarioClosure [mkMessage "2002" "K7TPLX"] = true
  /\ handleAttempt scenarioClosure (initialVars (options scenarioClosure))
                   [[mkMessage "2002" "K7TPLX"]; [from alice "K7TPLX"]]
     = (onTimeout scenarioClosure (initialVars (options scenarioClosure)),
        initialVars (options scenarioClosure), Resolved false)
  /\ attemptsLeft (initialVars (options scenarioClosure)) = 3.
Proof.
  split; [reflexivity|]. split; [|reflexivity].
  apply (C5_timeout_ends_the_session scenarioClosure
           (initialVars (options scenarioClosure))
           [mkMessage "2002" "K7TPLX"] [[from alice "K7TPLX"]]).
  reflexivity.
Defined.

(** ** C6: the first response equal to the answer *)

(** C6 (defect of the code, the one of C1). With [caseSensitive: false]
    and the custom answer "AB3F9Q", the response "ab3f9q" equals the
    answer once both are lowercased, yet the code compares the lowercased
    response with the answer as it stands: with one attempt the session
    ends in [failure], and with three attempts the first such response
    only brings the prompt again. Against the generated lower-case
    answer "k7tplx" the response "K7TPLX" does succeed, and so does the
    scenario of the claim (case-sensitive, three attempts, "wrong1" then
    "K7TPLX"), with [attemptsTaken = 2]. *)
Theorem C6_equal_after_folding_is_not_success :
  specEqual (applyDefaults insensitive) "AB3F9Q" "ab3f9q" = true
  /\ (exists t v,
        loop (present openPlatform (applyDefaults insensitive) (Some alice)
                      (Some (mkCaptcha png "AB3F9Q")) [[from alice "ab3f9q"]])
        = Some (t, v, Resolved false)
        /\ terminalNames t = [failure]
        /\ captchaResponses v = ["ab3f9q"])
  /\ specEqual (applyDefaults foldingOptions) "AB3F9Q" "ab3f9q" = true
  /\ (exists t v,
        loop (present openPlatform (applyDefaults foldingOptions) (Some alice)
                      (Some (mkCaptcha png "AB3F9Q")) [[from alice "ab3f9q"]])
        = Some (t, v, Awaiting)
        /\ terminalNames t = []
        /\ attemptsLeft v = 2)
  /\ (exists t v,
        loop (present openPlatform (applyDefaults foldingOptions) (Some alice)
                      None [[from alice "K7TPLX"]])
        = Some (t, v, Resolved true)
        /\ terminalNames t = [success]
        /\ captchaResponses v = ["k7tplx"])
  /\ (exists t v,
        handleAttempt scenarioClosure (initialVars (options scenarioClosure))
                      [[from alice "wrong1"]; [from alice "K7TPLX"]]
        = (t, v, Resolved true)
        /\ terminalNames t = [success]
        /\ attemptsTaken v = 2
        /\ captchaResponses v = ["wrong1"; "K7TPLX"]).
Proof.
  split; [reflexivity|].
  split; [eexists; eexists; vm_compute; repeat split|].
  split; [reflexivity|].
  split; [eexists; eexists; vm_compute; repeat split|].
  split; eexists; eexists; vm_compute; repeat split.
Qed.

(** ** C8: what the events carry *)

Lemma events_app (a b : list Effect) : events (a ++ b) = events a ++ events b.
Proof.
  induction a as [|e a IH]; [reflexivity|].
  destruct e; cbn [app events]; rewrite ?IH; reflexivity.
Qed.

Lemma events_heard (cl : Closure) (v : Vars) (m : Message) :
  events (heard cl v m) = [(answer, answerPayload cl v m)].
Proof. unfold heard, when. split_flags; reflexivity. Qed.

Lemma events_onTimeout (cl : Closure) (v : Vars) :
  events (onTimeout cl v) = [(timeout_, terminalPayload cl v)].
Proof. unfold onTimeout, sendIncorrect, when. split_flags; reflexivity. Qed.

Lemma events_onSuccess (cl : Closure) (v : Vars) :
  events (onSuccess cl v) = [(success, terminalPayload cl v)].
Proof. unfold onSuccess, when. split_flags; reflexivity. Qed.

Lemma events_onFailure (cl : Closure) (v : Vars) :
  events (onFailure cl v) = [(failure, terminalPayload cl v)].
Proof. unfold onFailure, sendIncorrect, when. split_flags; reflexivity. Qed.

Lemma events_nextAttempt (cl : Closure) (v : Vars) :
  events (snd (nextAttempt cl v)) = [].
Proof. unfold nextAttempt. split_flags; reflexivity. Qed.

(** The events of the loop: [answer]s, then, once resolved, one terminal
    event with all five keys. *)
Lemma handleAttempt_events (cl : Closure) :
  forall rounds v,
    let '(t, _, r) := handleAttempt cl v rounds in
    forallb shaped (events t) = true
    /\ match r with
       | Awaiting => forallb nonTerminal (events t) = true
       | Resolved _ =>
           exists before n p,
             events t = before ++ [(n, p)]
             /\ isTerminalName n = true
             /\ carriesAllFive p = true
             /\ forallb nonTerminal before = true
       end.
Proof.
  apply (handleAttempt_cases cl
           (fun _ _ res =>
              let '(t, _, r) := res in
              forallb shaped (events t) = true
              /\ match r with
                 | Awaiting => forallb nonTerminal (events t) = true
                 | Resolved _ =>
                     exists before n p,
                       events t = before ++ [(n, p)]
                       /\ isTerminalName n = true
                       /\ carriesAllFive p = true
                       /\ forallb nonTerminal before = true
                 end)).
  - intros v. split; reflexivity.
  - intros v arrivals later _. rewrite events_onTimeout. split; [reflexivity|].
    exists [], timeout_, (terminalPayload cl v). repeat split.
  - intros v arrivals later m _ _.
    rewrite events_app, events_heard, events_onSuccess. split; [reflexivity|].
    exists [(answer, answerPayload cl v m)], success,
           (terminalPayload cl (record cl v m)).
    repeat split.
  - intros v arrivals later m rest v3 r _ _ _ _ [Hshape Hend].
    rewrite !events_app, events_heard, events_nextAttempt. cbn [app].
    split.
    + cbn [forallb]. rewrite Hshape. reflexivity.
    + destruct r as [|b].
      * cbn [forallb]. rewrite Hend. reflexivity.
      * destruct Hend as (before & n & p & -> & Hn & Hp & Hb).
        exists ((answer, answerPayload cl v m) :: before), n, p.
        repeat split; assumption.
  - intros v arrivals later m _ _ _.
    rewrite events_app, events_heard, events_onFailure. split; [reflexivity|].
    exists [(answer, answerPayload cl v m)], failure,
           (terminalPayload cl (record cl v m)).
    repeat split.
Qed.

Lemma nextAttempt_prompt (cl : Closure) (v : Vars) :
  captchaPrompt (fst (nextAttempt cl v))
  = if JS.truthy_bool (showAttemptCount (options cl))
    then setFooter (captchaPrompt v) (AttemptsLeftFooter (attemptsLeft v - 1))
    else captchaPrompt v.
Proof.
  unfold nextAttempt.
  destruct (isGuildText (channel cl)),
           (JS.truthy_bool (showAttemptCount (options cl))); reflexivity.
Qed.

Lemma setFooter_promptAt (o : CaptchaOptions) (a : Z) (f : Footer) :
  setFooter (promptAt o a) f
  = setFooter (initialPrompt o (JS.number_or (attempts o) 1)) f.
Proof.
  unfold promptAt.
  destruct ((a <=? 1) || negb (JS.truthy_bool (showAttemptCount o)));
    reflexivity.
Qed.

(** The events of the loop, payload by payload, are the notifications
    of the replies it was given. *)
Lemma loop_events_are_notices
    (o : CaptchaOptions) (who : GuildMember) (c : Channel)
    (cap : CaptchaImageData) :
  forall rounds v,
    1 <= attemptsTaken v ->
    attemptsLeft v + attemptsTaken v = JS.number_or (attempts o) 1 + 1 ->
    captchaPrompt v = promptAt o (attemptsTaken v) ->
    events (fst (fst (handleAttempt (closureOf o who c cap) v rounds)))
    = notices o who cap (attemptsTaken v) (captchaResponses v)
              (replies who rounds).
Proof.
  induction rounds as [|arrivals later IH]; intros v Hone Hsum Hprompt.
  - reflexivity.
  - cbn [handleAttempt replies map notices member closureOf].
    fold (replies who later).
    destruct (awaitMessages (captchaFilter who) arrivals) as [m|];
      cbn [option_map fst].
    + assert (Hkept : normalize o (content m)
                      = match caseSensitive o with
                        | Some true => content m
                        | _ => JS.toLowerCase (content m)
                        end).
      { unfold normalize. destruct (caseSensitive o) as [[|]|]; reflexivity. }
      assert (Hans : answerPayload (closureOf o who c cap) v m
                     = answerNotice o who cap (attemptsTaken v) (content m)).
      { unfold answerPayload, answerNotice, activeConfig.
        cbn [member captcha options closureOf]. rewrite Hprompt. reflexivity. }
      assert (Hterm : terminalPayload (closureOf o who c cap)
                                      (record (closureOf o who c cap) v m)
                      = terminalNotice o who cap (attemptsTaken v)
                          (captchaResponses v
                           ++ [match caseSensitive o with
                               | Some true => content m
                               | _ => JS.toLowerCase (content m)
                               end])).
      { unfold terminalPayload, terminalNotice, activeConfig, record.
        cbn [member captcha options closureOf captchaResponses attemptsTaken
             captchaPrompt].
        rewrite Hprompt, Hkept. reflexivity. }
      unfold matches. cbn [options captcha closureOf]. rewrite Hkept.
      destruct (String.eqb _ (text cap)).
      * cbn [fst]. rewrite events_app, events_heard, events_onSuccess, Hans, Hterm.
        reflexivity.
      * change (attemptsLeft (record (closureOf o who c cap) v m))
          with (attemptsLeft v).
        destruct (Z.gtb_spec (attemptsLeft v) 1) as [Hgt|Hle];
          destruct (Z.ltb_spec (attemptsTaken v) (JS.number_or (attempts o) 1))
          as [Hlt|Hge]; try lia.
        -- set (v2 := fst (nextAttempt (closureOf o who c cap)
                                       (record (closureOf o who c cap) v m))).
           destruct (nextAttempt_vars (closureOf o who c cap)
                       (record (closureOf o who c cap) v m)) as (Hl & Ht & Hr).
           fold v2 in Hl, Ht, Hr.
           cbn [record attemptsLeft attemptsTaken captchaResponses options
                closureOf] in Hl, Ht, Hr.
           specialize (IH v2).
           destruct (handleAttempt (closureOf o who c cap) v2 later)
             as [[rest v3] r].
           cbn [fst] in IH |- *.
           rewrite !events_app, events_heard, events_nextAttempt, Hans.
           cbn [app]. f_equal.
           rewrite IH; [rewrite Ht, Hr, Hkept; reflexivity | lia | lia |].
           rewrite Ht. unfold v2. rewrite nextAttempt_prompt.
           cbn [options closureOf record captchaPrompt attemptsLeft].
           rewrite Hprompt.
           destruct (JS.truthy_bool (showAttemptCount o)) eqn:Hshow.
           ++ rewrite setFooter_promptAt. unfold promptAt. rewrite Hshow.
              cbn [negb]. rewrite orb_false_r.
              destruct (Z.leb_spec (attemptsTaken v + 1) 1); [lia|].
              do 2 f_equal. lia.
           ++ unfold promptAt. rewrite Hshow. cbn [negb]. rewrite !orb_true_r.
              reflexivity.
        -- cbn [fst]. rewrite events_app, events_heard, events_onFailure, Hans, Hterm.
           reflexivity.
    + rewrite events_onTimeout. unfold terminalPayload, terminalNotice, activeConfig.
      cbn [member captcha options closureOf]. rewrite Hprompt. reflexivity.
Qed.

(** A call that starts a loop: whose loop, and what it emitted before. *)
Lemma present_started P o m custom rounds lp :
  loop (present P o m custom rounds) = Some lp ->
  exists who c,
    m = Some who
    /\ lp = handleAttempt (closureOf o who c (chosenCaptcha P o custom))
                          (initialVars o) rounds
    /\ events (trace (present P o m custom rounds))
       = [(prompt, promptNotice o who (chosenCaptcha P o custom))].
Proof.
  unfold present.
  destruct m as [who|]; [|discriminate].
  destruct (match custom with Some c => rejectsCustom c | None => false end);
    [discriminate|].
  destruct (handleChannelType P o); [|discriminate].
  destruct (deliver P o _) as [[[c|]|e] tried] eqn:Hd; try discriminate.
  cbn [loop trace]. intros [= <-].
  exists who, c. split; [reflexivity|]. split; [reflexivity|].
  rewrite events_app.
  assert (Hquiet : events tried = []).
  { revert Hd. unfold deliver.
    repeat match goal with
           | |- context [match ?x with _ => _ end] => destruct x
           end; intros Heq; inversion Heq; subst; reflexivity. }
  rewrite Hquiet. reflexivity.
Qed.

(** C8, as amended. The events of a call are, payload by payload, the
    notifications of its session. [prompt] carries the member, the
    expected answer and the active configuration, and nothing else;
    each [answer] carries the member, the single response as typed (not
    the history), the attempts taken so far, the expected answer and the
    active configuration; [success], [timeout] and [failure] carry the
    member, the response history so far, the attempts taken so far, the
    expected answer and the active configuration. The active
    configuration is the options object, whose custom prompt embed (if
    any) is the prompt as rendered by then. A loop that has ended has
    emitted exactly one terminal event, as its last event; a call that
    started no loop has emitted nothing. *)
Theorem C8_payload_of_each_event
    (P : Platform) (o : CaptchaOptions) (m : option GuildMember)
    (custom : option CaptchaImageData) (rounds : list (list Message)) :
  allEvents (present P o m custom rounds)
  = match m, loop (present P o m custom rounds) with
    | Some who, Some _ =>
        (prompt, promptNotice o who (chosenCaptcha P o custom))
        :: notices o who (chosenCaptcha P o custom) 1 [] (replies who rounds)
    | _, _ => []
    end
  /\ forallb shaped (allEvents (present P o m custom rounds)) = true
  /\ match loop (present P o m custom rounds) with
     | Some (_, _, Resolved _) =>
         exists before n p,
           allEvents (present P o m custom rounds) = before ++ [(n, p)]
           /\ isTerminalName n = true
           /\ carriesAllFive p = true
           /\ forallb nonTerminal before = true
     | _ => forallb nonTerminal (allEvents (present P o m custom rounds)) = true
     end.
Proof.
  destruct (loop (present P o m custom rounds)) as [[[t v] r]|] eqn:Hl.
  - destruct (present_started _ _ _ _ _ _ Hl) as (who & c & -> & Hrun & Htrace).
    assert (Hall : allEvents (present P o (Some who) custom rounds)
                   = (prompt, promptNotice o who (chosenCaptcha P o custom))
                     :: events t).
    { unfold allEvents, loopTrace. rewrite Hl, events_app, Htrace. reflexivity. }
    rewrite Hall.
    pose proof (loop_events_are_notices o who c (chosenCaptcha P o custom)
                  rounds (initialVars o)) as Hn.
    pose proof (handleAttempt_events
                  (closureOf o who c (chosenCaptcha P o custom)) rounds
                  (initialVars o)) as Hev.
    rewrite <- Hrun in Hn, Hev. cbn [fst] in Hn. destruct Hev as [Hshape Hend].
    split; [|split].
    + rewrite Hl, Hn; [reflexivity | cbn; lia | cbn; lia | reflexivity].
    + cbn [forallb]. rewrite Hshape. reflexivity.
    + destruct r as [|b].
      * exact Hend.
      * destruct Hend as (before & n & p & -> & Hn' & Hp & Hb).
        exists ((prompt, promptNotice o who (chosenCaptcha P o custom)) :: before),
               n, p.
        repeat split; assumption.
  - rewrite (present_no_loop_no_event _ _ _ _ _ Hl).
    split; [destruct m; rewrite ?Hl; reflexivity|]. split; reflexivity.
Qed.

(** C8, as stated, fails: the [prompt] event of a call carries neither
    the responses nor the attempts. *)
Lemma C8_prompt_event_lacks_two_fields :
  ~ (forall P o m custom rounds n p,
       In (n, p) (allEvents (present P o m custom rounds)) ->
       carriesAllFive p = true).
Proof.
  intros Hall.
  assert (Hin : In (prompt,
                    promptNotice (applyDefaults (withRole "role-1")) alice
                                 (mkCaptcha png "k7tplx"))
                   (allEvents (present openPlatform
                                       (applyDefaults (withRole "role-1"))
                                       (Some alice) None []))).
  { left. reflexivity. }
  apply Hall in Hin. discriminate Hin.
Qed.

(** ** C9: validation and return value of [present] *)

(** C9, as amended. [present] resolves to [false], with nothing sent,
    emitted or started, when the member is absent or when a custom
    challenge is supplied whose image is not a [Buffer] (absent
    included) or whose text is empty. What a call settles to and what
    it does before settling do not depend on the member's responses, and
    once the prompt is delivered the call resolves to [true]. *)
Theorem C9_present_validation_and_return
    (P : Platform) (o : CaptchaOptions) (m : option GuildMember)
    (custom : option CaptchaImageData) (rounds : list (list Message)) :
  ((m = None
    \/ exists c, custom = Some c
                 /\ (isBuffer (image c) = false \/ text c = "")) ->
   present P o m custom rounds = mkRun (Ok false) [] None)
  /\ (forall rounds',
        settled (present P o m custom rounds') = settled (present P o m custom rounds)
        /\ trace (present P o m custom rounds') = trace (present P o m custom rounds))
  /\ (forall lp, loop (present P o m custom rounds) = Some lp ->
                 settled (present P o m custom rounds) = Ok true).
Proof.
  split; [|split].
  - intros [-> | (c & -> & Hbad)]; [reflexivity|].
    unfold present. destruct m as [who|]; [|reflexivity].
    assert (Hrej : rejectsCustom c = true).
    { unfold rejectsCustom.
      destruct Hbad as [Hbuf | Htext].
      - destruct (image c) as [|bytes|[|ch s]]; try discriminate; cbn;
          try reflexivity.
        destruct (String.eqb _ _); reflexivity.
      - rewrite Htext. destruct (falsyImage (image c)); reflexivity. }
    rewrite Hrej. reflexivity.
  - intros rounds'. unfold present.
    destruct m as [who|]; [|split; reflexivity].
    destruct (match custom with Some c => rejectsCustom c | None => false end);
      [split; reflexivity|].
    destruct (handleChannelType P o); [|split; reflexivity].
    destruct (deliver P o _) as [[[c|]|e] tried]; split; reflexivity.
  - intros lp Hl. apply present_loop_inv in Hl as (_ & _ & _ & _ & _ & Hs & _).
    exact Hs.
Qed.

(** A custom challenge whose image is a file name, not a [Buffer]. *)
Lemma C9_text_image_is_rejected :
  present openPlatform (applyDefaults (withRole "role-1")) (Some alice)
          (Some (mkCaptcha (TextImage "captcha.png") "abc"))
          [[from alice "abc"]]
  = mkRun (Ok false) [] None.
Proof.
  apply (proj1 (C9_present_validation_and_return
                  openPlatform (applyDefaults (withRole "role-1")) (Some alice)
                  (Some (mkCaptcha (TextImage "captcha.png") "abc"))
                  [[from alice "abc"]])).
  right. exists (mkCaptcha (TextImage "captcha.png") "abc").
  split; [reflexivity|]. left. reflexivity.
Defined.

(** C9, as stated, fails: a custom challenge whose image is a [Buffer]
    of length zero is presented, and the call resolves to [true]. *)
Lemma C9_empty_buffer_is_presented :
  specRejectsCustom blankCaptcha = true
  /\ settled (present openPlatform (applyDefaults (withRole "role-1"))
                      (Some alice) (Some blankCaptcha) [])
     = Ok true
  /\ trace (present openPlatform (applyDefaults (withRole "role-1"))
                    (Some alice) (Some blankCaptcha) [])
     <> [].
Proof.
  split; [reflexivity|]. split; [reflexivity|]. vm_compute. discriminate.
Qed.

(** ** C10: what is cleaned up, and where *)













(** * Further properties of the code *)

(** ** The constructor, once more *)

(** The instance a construction yields: discord.js 14 or later and a
    client were there, the options are the given ones with the defaults
    filled in, [attempts] and [timeout] are at least 1, the three
    defaulted switches are defined, a forced text channel has its
    [channelID], and the keys without a default are untouched. *)
Theorem constructor_establishes_invariants
    (vm : Z) (client : bool) (o o' : CaptchaOptions) :
  constructor vm client o = Constructed o' ->
  14 <= vm /\ client = true /\ o' = applyDefaults o
  /\ (exists n, attempts o' = Some n /\ 1 <= n)
  /\ (exists t, timeout o' = Some t /\ 1 <= t)
  /\ addRoleOnSuccess o' <> None
  /\ caseSensitive o' <> None
  /\ showAttemptCount o' <> None
  /\ (sendToTextChannel o' = Some true -> JS.truthy_string (channelID o') = true)
  /\ roleID o' = roleID o /\ channelID o' = channelID o
  /\ kickOnFailure o' = kickOnFailure o
  /\ sendToTextChannel o' = sendToTextChannel o.
Proof.
  unfold constructor.
  destruct (Z.ltb_spec vm 14) as [|Hvm]; [discriminate|].
  destruct client; [|discriminate]. cbn [negb].
  destruct (JS.strictly_true (sendToTextChannel o)
            && negb (JS.truthy_string (channelID o))) eqn:Hch; [discriminate|].
  destruct (JS.strictly_true (addRoleOnSuccess o)
            && negb (JS.truthy_string (roleID o))) eqn:Hrole; [discriminate|].
  destruct (JS.truthy_number (attempts o)
            && match attempts o with Some a => a <? 1 | None => false end) eqn:Ha;
    [discriminate|].
  destruct (JS.truthy_number (timeout o)
            && match timeout o with Some t => t <? 1 | None => false end) eqn:Ht;
    [discriminate|].
  intros [= <-].
  split; [exact Hvm|]. split; [reflexivity|]. split; [reflexivity|].
  unfold applyDefaults; cbn.
  repeat split.
  - eexists; split; [reflexivity|]. unfold JS.number_or.
    destruct (attempts o) as [a|]; [|lia]. cbn in Ha.
    destruct (Z.eqb_spec a 0); [lia|]. cbn in Ha.
    destruct (Z.ltb_spec a 1); [discriminate|lia].
  - eexists; split; [reflexivity|]. unfold JS.number_or.
    destruct (timeout o) as [t|]; [|lia]. cbn in Ht.
    destruct (Z.eqb_spec t 0); [lia|]. cbn in Ht.
    destruct (Z.ltb_spec t 1); [discriminate|lia].
  - destruct (addRoleOnSuccess o); discriminate.
  - destruct (caseSensitive o); discriminate.
  - destruct (showAttemptCount o); discriminate.
  - intros Hs. rewrite Hs in Hch. cbn in Hch.
    destruct (JS.truthy_string (channelID o)); [reflexivity|discriminate].
Qed.

(** The options of the two-attempt guild-channel instance. *)
Lemma constructor_invariants_of_twoAttempts :
  constructor 14 true twoAttempts = Constructed (applyDefaults twoAttempts)
  /\ (exists n, attempts (applyDefaults twoAttempts) = Some n /\ 1 <= n)
  /\ (exists t, timeout (applyDefaults twoAttempts) = Some t /\ 1 <= t).
Proof.
  split; [reflexivity|].
  destruct (constructor_establishes_invariants 14 true twoAttempts
              (applyDefaults twoAttempts) eq_refl)
    as (_ & _ & _ & Ha & Ht & _).
  split; assumption.
Defined.

(** With discord.js 14 or later and a client, the constructor goes
    through exactly when a forced text channel has its [channelID], an
    explicit [addRoleOnSuccess: true] has its [roleID], and neither
    [attempts] nor [timeout] is negative; zero goes through. *)
Theorem constructor_accepts_iff (vm : Z) (o : CaptchaOptions) :
  14 <= vm ->
  (constructor vm true o = Constructed (applyDefaults o)
   <-> (sendToTextChannel o = Some true -> JS.truthy_string (channelID o) = true)
       /\ (addRoleOnSuccess o = Some true -> JS.truthy_string (roleID o) = true)
       /\ (forall a, attempts o = Some a -> 0 <= a)
       /\ (forall t, timeout o = Some t -> 0 <= t)).
Proof.
  intros Hvm. unfold constructor.
  destruct (Z.ltb_spec vm 14) as [|_]; [lia|]. cbn [negb].
  split.
  - destruct (JS.strictly_true (sendToTextChannel o)
              && negb (JS.truthy_string (channelID o))) eqn:Hch; [discriminate|].
    destruct (JS.strictly_true (addRoleOnSuccess o)
              && negb (JS.truthy_string (roleID o))) eqn:Hrole; [discriminate|].
    destruct (JS.truthy_number (attempts o)
              && match attempts o with Some a => a <? 1 | None => false end) eqn:Ha;
      [discriminate|].
    destruct (JS.truthy_number (timeout o)
              && match timeout o with Some t => t <? 1 | None => false end) eqn:Ht;
      [discriminate|].
    intros _. repeat split.
    + intros Hs. rewrite Hs in Hch. cbn in Hch.
      destruct (JS.truthy_string (channelID o)); [reflexivity|discriminate].
    + intros Hs. rewrite Hs in Hrole. cbn in Hrole.
      destruct (JS.truthy_string (roleID o)); [reflexivity|discriminate].
    + intros a E. rewrite E in Ha. cbn in Ha.
      destruct (Z.eqb_spec a 0); [lia|]. cbn in Ha.
      destruct (Z.ltb_spec a 1); [discriminate|lia].
    + intros t E. rewrite E in Ht. cbn in Ht.
      destruct (Z.eqb_spec t 0); [lia|]. cbn in Ht.
      destruct (Z.ltb_spec t 1); [discriminate|lia].
  - intros (Hch & Hrole & Ha & Ht).
    assert (E1 : JS.strictly_true (sendToTextChannel o)
                 && negb (JS.truthy_string (channelID o)) = false).
    { destruct (sendToTextChannel o) as [[|]|]; try reflexivity.
      rewrite (Hch eq_refl). reflexivity. }
    assert (E2 : JS.strictly_true (addRoleOnSuccess o)
                 && negb (JS.truthy_string (roleID o)) = false).
    { destruct (addRoleOnSuccess o) as [[|]|]; try reflexivity.
      rewrite (Hrole eq_refl). reflexivity. }
    assert (E3 : JS.truthy_number (attempts o)
                 && match attempts o with Some a => a <? 1 | None => false end
                 = false).
    { destruct (attempts o) as [a|]; [|reflexivity]. specialize (Ha a eq_refl).
      cbn. destruct (Z.eqb_spec a 0); [reflexivity|]. cbn.
      destruct (Z.ltb_spec a 1); [lia|reflexivity]. }
    assert (E4 : JS.truthy_number (timeout o)
                 && match timeout o with Some t => t <? 1 | None => false end
                 = false).
    { destruct (timeout o) as [t|]; [|reflexivity]. specialize (Ht t eq_refl).
      cbn. destruct (Z.eqb_spec t 0); [reflexivity|]. cbn.
      destruct (Z.ltb_spec t 1); [lia|reflexivity]. }
    rewrite E1, E2, E3, E4. reflexivity.
Qed.

(** Negative attempts are refused, so the condition fails for them. *)
Lemma constructor_refuses_negative_attempts :
  14 <= 14
  /\ constructor 14 true negativeAttempts <> Constructed (applyDefaults negativeAttempts)
  /\ constructor 14 true zeroAttempts = Constructed (applyDefaults zeroAttempts).
Proof.
  split; [lia|]. split.
  - intros H.
    apply (proj1 (constructor_accepts_iff 14 negativeAttempts ltac:(lia))) in H.
    destruct H as (_ & _ & Ha & _). specialize (Ha (-1) eq_refl). lia.
  - apply (proj2 (constructor_accepts_iff 14 zeroAttempts ltac:(lia))).
    repeat split; try discriminate.
    + intros a [= <-]. lia.
    + intros t [= <-]. lia.
Defined.

Lemma constructed_options (vm : Z) (o o' : CaptchaOptions) :
  constructor vm true o = Constructed o' ->
  14 <= vm /\ o' = applyDefaults o
  /\ JS.strictly_true (sendToTextChannel o')
     && negb (JS.truthy_string (channelID o')) = false
  /\ JS.number_or (attempts o) 1 <> 0 /\ ~ JS.number_or (attempts o) 1 < 1
  /\ JS.number_or (timeout o) 60000 <> 0 /\ ~ JS.number_or (timeout o) 60000 < 1.
Proof.
  unfold constructor.
  destruct (Z.ltb_spec vm 14) as [|Hvm]; [discriminate|]. cbn [negb].
  destruct (JS.strictly_true (sendToTextChannel o)
            && negb (JS.truthy_string (channelID o))) eqn:Hch; [discriminate|].
  destruct (JS.strictly_true (addRoleOnSuccess o)
            && negb (JS.truthy_string (roleID o))); [discriminate|].
  destruct (JS.truthy_number (attempts o)
            && match attempts o with Some a => a <? 1 | None => false end) eqn:Ha;
    [discriminate|].
  destruct (JS.truthy_number (timeout o)
            && match timeout o with Some t => t <? 1 | None => false end) eqn:Ht;
    [discriminate|].
  intros [= <-]. split; [exact Hvm|]. split; [reflexivity|].
  split; [exact Hch|]. unfold JS.number_or.
  destruct (attempts o) as [a|], (timeout o) as [t|]; cbn in Ha, Ht;
    repeat match goal with
           | |- context [?x =? 0] => destruct (Z.eqb_spec x 0)
           | H : context [?x =? 0] |- _ => destruct (Z.eqb_spec x 0)
           | H : context [?x <? 1] |- _ => destruct (Z.ltb_spec x 1)
           end; cbn in Ha, Ht; try discriminate; repeat split; lia.
Qed.

Lemma number_or_nonzero (n : option Z) (d : Z) :
  d <> 0 -> JS.number_or n d <> 0.
Proof.
  intros Hd. unfold JS.number_or. destruct n as [z|]; [|exact Hd].
  destruct (Z.eqb_spec z 0); assumption.
Qed.

Lemma applyDefaults_idempotent (o : CaptchaOptions) :
  applyDefaults (applyDefaults o) = applyDefaults o.
Proof.
  unfold applyDefaults; cbn.
  pose proof (number_or_nonzero (attempts o) 1 ltac:(lia)) as Ha.
  pose proof (number_or_nonzero (timeout o) 60000 ltac:(lia)) as Ht.
  destruct (Z.eqb_spec (JS.number_or (attempts o) 1) 0); [contradiction|].
  destruct (Z.eqb_spec (JS.number_or (timeout o) 60000) 0); [contradiction|].
  destruct (addRoleOnSuccess o), (caseSensitive o), (showAttemptCount o);
    reflexivity.
Qed.

(** The constructor writes the defaults into the object it was given, so
    a second construction from that object sees them. It yields the same
    options again, unless [addRoleOnSuccess] is [true] by now and there
    is no [roleID]: then the process exits. *)
Theorem constructor_on_the_same_object
    (vm : Z) (o o' : CaptchaOptions) :
  constructor vm true o = Constructed o' ->
  constructor vm true o'
  = if JS.strictly_true (addRoleOnSuccess o') && negb (JS.truthy_string (roleID o'))
    then ProcessExit 1 NoRoleID
    else Constructed o'.
Proof.
  intros Hc.
  destruct (constructed_options vm o o' Hc)
    as (Hvm & Ho' & E1 & Ha0 & Ha1 & Ht0 & Ht1).
  subst o'. unfold constructor.
  destruct (Z.ltb_spec vm 14) as [|_]; [lia|]. cbn [negb].
  rewrite E1.
  destruct (JS.strictly_true (addRoleOnSuccess (applyDefaults o))
            && negb (JS.truthy_string (roleID (applyDefaults o))));
    [reflexivity|].
  change (attempts (applyDefaults o)) with (Some (JS.number_or (attempts o) 1)).
  change (timeout (applyDefaults o)) with (Some (JS.number_or (timeout o) 60000)).
  cbn [JS.truthy_number].
  destruct (Z.eqb_spec (JS.number_or (attempts o) 1) 0); [contradiction|].
  destruct (Z.ltb_spec (JS.number_or (attempts o) 1) 1); [contradiction|].
  destruct (Z.eqb_spec (JS.number_or (timeout o) 60000) 0); [contradiction|].
  destruct (Z.ltb_spec (JS.number_or (timeout o) 60000) 1); [contradiction|].
  cbn [negb andb]. rewrite applyDefaults_idempotent. reflexivity.
Qed.

(** The object [{}] after one construction is refused by the next. *)
Lemma constructor_twice_from_empty :
  constructor 14 true emptyOptions = Constructed (applyDefaults emptyOptions)
  /\ constructor 14 true (applyDefaults emptyOptions) = ProcessExit 1 NoRoleID.
Proof.
  split; [reflexivity|].
  exact (constructor_on_the_same_object 14 emptyOptions
           (applyDefaults emptyOptions) eq_refl).
Defined.

(** ** The resolver, once more *)

Lemma handleChannelType_chooses (P : Platform) (o : CaptchaOptions) (c : Channel) :
  handleChannelType P o = Ok c ->
  (JS.truthy_string (channelID o) = false /\ createDM P = Some c)
  \/ (JS.truthy_string (channelID o) = true
      /\ sendToTextChannel o = Some true
      /\ resolveOpt P (channelID o) = Some c).
Proof.
  unfold handleChannelType.
  destruct (JS.truthy_string (channelID o)); cbn [negb].
  - destruct (sendToTextChannel o) as [[|]|]; cbn [JS.strictly_true];
      try discriminate.
    destruct (resolveOpt P (channelID o)); [|discriminate].
    intros [= <-]. right. auto.
  - destruct (createDM P); [|discriminate]. intros [= <-]. left. auto.
Qed.

(** [handleChannelType] returns a channel in two cases only: the direct
    channel when no [channelID] is configured, and the configured
    channel when [sendToTextChannel] is [true]. It throws the rejection
    of [createDM] in the first case, and "Channel not found or not
    accessible." in every other. *)
Theorem handleChannelType_result (P : Platform) (o : CaptchaOptions) :
  (forall c,
     handleChannelType P o = Ok c
     <-> (JS.truthy_string (channelID o) = false /\ createDM P = Some c)
         \/ (JS.truthy_string (channelID o) = true
             /\ sendToTextChannel o = Some true
             /\ resolveOpt P (channelID o) = Some c))
  /\ (handleChannelType P o = Throw PlatformRejected
      <-> JS.truthy_string (channelID o) = false /\ createDM P = None)
  /\ (handleChannelType P o = Throw ChannelUnavailable
      <-> JS.truthy_string (channelID o) = true
          /\ (sendToTextChannel o <> Some true
              \/ resolveOpt P (channelID o) = None))
  /\ handleChannelType P o <> Throw NullChannel.
Proof.
  unfold handleChannelType.
  destruct (JS.truthy_string (channelID o)) eqn:Hc; cbn [negb];
    [ destruct (sendToTextChannel o) as [[|]|]; cbn [JS.strictly_true];
      [ destruct (resolveOpt P (channelID o)) as [c0|] | | ]
    | destruct (createDM P) as [c0|] ];
    (split; [intros c|]); intuition congruence.
Qed.

(** ** The comparison, once more *)

(** A response is recorded in normal form: normalizing it again changes
    nothing, in either mode. *)
Theorem normalize_idempotent (o : CaptchaOptions) (s : string) :
  normalize o (normalize o s) = normalize o s.
Proof.
  unfold normalize.
  destruct (negb (JS.strictly_true (caseSensitive o)));
    [apply toLowerCase_idempotent|reflexivity].
Qed.

(** When the comparison is not case-sensitive and the expected answer is
    its own lower case (as a generated one is, upper-case letters being
    excluded), a response matches exactly when it equals the answer up
    to case; the answer itself matches, and two responses that differ in
    case only are judged alike. *)
Theorem matches_up_to_case (cl : Closure) (r : string) :
  caseSensitive (options cl) <> Some true ->
  JS.toLowerCase (text (captcha cl)) = text (captcha cl) ->
  (matches cl r = true <-> JS.toLowerCase r = JS.toLowerCase (text (captcha cl)))
  /\ matches cl (text (captcha cl)) = true
  /\ (forall r', JS.toLowerCase r' = JS.toLowerCase r -> matches cl r' = matches cl r).
Proof.
  intros Hcs Hlow. split; [|split].
  - rewrite matches_folded by assumption. rewrite Hlow. apply String.eqb_eq.
  - rewrite matches_folded by assumption. rewrite Hlow. apply String.eqb_refl.
  - intros r' E. rewrite !matches_folded by assumption. rewrite E. reflexivity.
Qed.

Lemma matches_K7TPLX_against_k7tplx :
  matches foldingClosure "K7tPlX" = true.
Proof.
  apply (proj1 (matches_up_to_case foldingClosure "K7tPlX"
                  ltac:(discriminate) eq_refl)).
  reflexivity.
Defined.

(** ** Who is heard *)

Lemma find_filter {A : Type} (f : A -> bool) (l : list A) :
  find f (filter f l) = find f l.
Proof.
  induction l as [|x l IH]; [reflexivity|]. cbn.
  destruct (f x) eqn:Hx; cbn; [rewrite Hx; reflexivity|exact IH].
Qed.

(** The loop reads its rounds through [awaitMessages] only. *)
Lemma handleAttempt_ext (cl : Closure) :
  forall rounds rounds' v,
    map (awaitMessages (captchaFilter (member cl))) rounds
    = map (awaitMessages (captchaFilter (member cl))) rounds' ->
    handleAttempt cl v rounds = handleAttempt cl v rounds'.
Proof.
  induction rounds as [|a later IH]; intros [|a' later'] v E;
    try discriminate; [reflexivity|].
  cbn [map] in E. injection E as Ea El. cbn [handleAttempt].
  rewrite <- Ea.
  destruct (awaitMessages (captchaFilter (member cl)) a) as [m|]; [|reflexivity].
  destruct (matches cl (content m)); [reflexivity|].
  destruct (attemptsLeft (record cl v m) >? 1); [|reflexivity].
  rewrite (IH later' _ El). reflexivity.
Qed.

(** Messages of other authors never change a session: the loop behaves
    as if only the member's messages had arrived, and indeed as if only
    the member's first message of each round had. *)
Theorem handleAttempt_hears_the_member_only
    (cl : Closure) (v : Vars) (rounds : list (list Message)) :
  handleAttempt cl v (map (filter (captchaFilter (member cl))) rounds)
  = handleAttempt cl v rounds
  /\ handleAttempt cl v
       (map (fun arrivals =>
               match awaitMessages (captchaFilter (member cl)) arrivals with
               | Some m => [m]
               | None => []
               end) rounds)
     = handleAttempt cl v rounds.
Proof.
  split; apply handleAttempt_ext; rewrite map_map; apply map_ext; intros a;
    unfold awaitMessages.
  - apply find_filter.
  - destruct (find (captchaFilter (member cl)) a) as [m|] eqn:Hm; [|reflexivity].
    cbn. apply find_some in Hm as [_ Hm]. rewrite Hm. reflexivity.
Qed.

(** ** The observers on the pieces of a trace *)

Lemma answered_app (a b : list Effect) : answered (a ++ b) = answered a ++ answered b.
Proof. apply flat_map_app. Qed.

Lemma answerAttempts_app (a b : list Effect) :
  answerAttempts (a ++ b) = answerAttempts a ++ answerAttempts b.
Proof. apply flat_map_app. Qed.

Lemma terminalNames_app (a b : list Effect) :
  terminalNames (a ++ b) = terminalNames a ++ terminalNames b.
Proof. apply flat_map_app. Qed.

Lemma roleGrants_app (a b : list Effect) :
  roleGrants (a ++ b) = roleGrants a ++ roleGrants b.
Proof. apply flat_map_app. Qed.

Lemma kicks_app (a b : list Effect) : kicks (a ++ b) = kicks a ++ kicks b.
Proof. apply flat_map_app. Qed.

Lemma sendTargets_app (a b : list Effect) :
  sendTargets (a ++ b) = sendTargets a ++ sendTargets b.
Proof. apply flat_map_app. Qed.

Lemma promptSends_app (a b : list Effect) :
  promptSends (a ++ b) = promptSends a ++ promptSends b.
Proof. apply flat_map_app. Qed.

Lemma promptEdits_app (a b : list Effect) :
  promptEdits (a ++ b) = promptEdits a ++ promptEdits b.
Proof. apply flat_map_app. Qed.

Lemma heard_observed (cl : Closure) (v : Vars) (m : Message) :
  answered (heard cl v m) = [content m]
  /\ answerAttempts (heard cl v m) = [attemptsTaken v]
  /\ terminalNames (heard cl v m) = []
  /\ roleGrants (heard cl v m) = []
  /\ kicks (heard cl v m) = []
  /\ sendTargets (heard cl v m) = []
  /\ promptSends (heard cl v m) = []
  /\ promptEdits (heard cl v m) = [].
Proof. unfold heard, when. split_flags; repeat split. Qed.

Lemma nextAttempt_observed (cl : Closure) (v : Vars) :
  answered (snd (nextAttempt cl v)) = []
  /\ answerAttempts (snd (nextAttempt cl v)) = []
  /\ terminalNames (snd (nextAttempt cl v)) = []
  /\ roleGrants (snd (nextAttempt cl v)) = []
  /\ kicks (snd (nextAttempt cl v)) = []
  /\ Forall (fun c => c = channel cl) (sendTargets (snd (nextAttempt cl v))).
Proof. unfold nextAttempt. split_flags; repeat split; repeat constructor. Qed.

Lemma onTimeout_observed (cl : Closure) (v : Vars) :
  answered (onTimeout cl v) = []
  /\ answerAttempts (onTimeout cl v) = []
  /\ terminalNames (onTimeout cl v) = [timeout_]
  /\ roleGrants (onTimeout cl v) = []
  /\ kicks (onTimeout cl v)
     = (if JS.truthy_bool (kickOnFailure (options cl))
        then ["Failed to Pass CAPTCHA"] else [])
  /\ sendTargets (onTimeout cl v) = [channel cl]
  /\ promptSends (onTimeout cl v) = []
  /\ promptEdits (onTimeout cl v) = [].
Proof. unfold onTimeout, sendIncorrect, when. split_flags; repeat split. Qed.

Lemma onSuccess_observed (cl : Closure) (v : Vars) :
  answered (onSuccess cl v) = []
  /\ answerAttempts (onSuccess cl v) = []
  /\ terminalNames (onSuccess cl v) = [success]
  /\ roleGrants (onSuccess cl v)
     = (if JS.strictly_true (addRoleOnSuccess (options cl))
        then [roleID (options cl)] else [])
  /\ kicks (onSuccess cl v) = []
  /\ sendTargets (onSuccess cl v) = [channel cl]
  /\ promptSends (onSuccess cl v) = []
  /\ promptEdits (onSuccess cl v) = [].
Proof. unfold onSuccess, when. split_flags; repeat split. Qed.

Lemma onFailure_observed (cl : Closure) (v : Vars) :
  answered (onFailure cl v) = []
  /\ answerAttempts (onFailure cl v) = []
  /\ terminalNames (onFailure cl v) = [failure]
  /\ roleGrants (onFailure cl v) = []
  /\ kicks (onFailure cl v)
     = (if JS.truthy_bool (kickOnFailure (options cl))
        then ["Failed to Pass CAPTCHA"] else [])
  /\ sendTargets (onFailure cl v) = [channel cl]
  /\ promptSends (onFailure cl v) = []
  /\ promptEdits (onFailure cl v) = [].
Proof. unfold onFailure, sendIncorrect, when. split_flags; repeat split. Qed.

(** ** How a session ends *)

Lemma loop_outcome_and_effects
    (cl : Closure) (v : Vars) (rounds : list (list Message)) :
  let '(t, _, r) := handleAttempt cl v rounds in
  match r with
  | Awaiting => terminalNames t = [] /\ roleGrants t = [] /\ kicks t = []
  | Resolved true =>
      terminalNames t = [success]
      /\ roleGrants t = (if JS.strictly_true (addRoleOnSuccess (options cl))
                         then [roleID (options cl)] else [])
      /\ kicks t = []
  | Resolved false =>
      (terminalNames t = [timeout_] \/ terminalNames t = [failure])
      /\ roleGrants t = []
      /\ kicks t = (if JS.truthy_bool (kickOnFailure (options cl))
                    then ["Failed to Pass CAPTCHA"] else [])
  end.
Proof.
  revert rounds v.
  apply (handleAttempt_cases cl
           (fun _ _ res =>
              let '(t, _, r) := res in
              match r with
              | Awaiting => terminalNames t = [] /\ roleGrants t = [] /\ kicks t = []
              | Resolved true =>
                  terminalNames t = [success]
                  /\ roleGrants t
                     = (if JS.strictly_true (addRoleOnSuccess (options cl))
                        then [roleID (options cl)] else [])
                  /\ kicks t = []
              | Resolved false =>
                  (terminalNames t = [timeout_] \/ terminalNames t = [failure])
                  /\ roleGrants t = []
                  /\ kicks t = (if JS.truthy_bool (kickOnFailure (options cl))
                                then ["Failed to Pass CAPTCHA"] else [])
              end)).
  - intros v. repeat split.
  - intros v arrivals later _.
    destruct (onTimeout_observed cl v) as (_ & _ & Ht & Hr & Hk & _).
    rewrite Ht, Hr, Hk. auto.
  - intros v arrivals later m _ _.
    destruct (heard_observed cl v m) as (_ & _ & Ht & Hr & Hk & _).
    destruct (onSuccess_observed cl (record cl v m)) as (_ & _ & Ht' & Hr' & Hk' & _).
    rewrite terminalNames_app, roleGrants_app, kicks_app.
    rewrite Ht, Hr, Hk, Ht', Hr', Hk'. auto.
  - intros v arrivals later m rest v3 r _ _ _ _ IH.
    destruct (heard_observed cl v m) as (_ & _ & Ht & Hr & Hk & _).
    destruct (nextAttempt_observed cl (record cl v m)) as (_ & _ & Ht' & Hr' & Hk' & _).
    rewrite !terminalNames_app, !roleGrants_app, !kicks_app.
    rewrite Ht, Hr, Hk, Ht', Hr', Hk'. exact IH.
  - intros v arrivals later m _ _ _.
    destruct (heard_observed cl v m) as (_ & _ & Ht & Hr & Hk & _).
    destruct (onFailure_observed cl (record cl v m)) as (_ & _ & Ht' & Hr' & Hk' & _).
    rewrite terminalNames_app, roleGrants_app, kicks_app.
    rewrite Ht, Hr, Hk, Ht', Hr', Hk'. auto.
Qed.

(** The side effects of a loop follow its terminal event. After
    [success] the role was granted, once and only when
    [addRoleOnSuccess] is [true], and nobody was kicked; after [timeout]
    or [failure] no role was granted and the member was kicked, once and
    only when [kickOnFailure] is truthy; before any terminal event
    neither happened. A trace never holds two terminal events. *)
Theorem handleAttempt_outcome_and_effects
    (cl : Closure) (v : Vars) (rounds : list (list Message)) :
  match terminalNames (fst (fst (handleAttempt cl v rounds))) with
  | [] =>
      roleGrants (fst (fst (handleAttempt cl v rounds))) = []
      /\ kicks (fst (fst (handleAttempt cl v rounds))) = []
  | [success] =>
      roleGrants (fst (fst (handleAttempt cl v rounds)))
      = (if JS.strictly_true (addRoleOnSuccess (options cl))
         then [roleID (options cl)] else [])
      /\ kicks (fst (fst (handleAttempt cl v rounds))) = []
  | [timeout_] | [failure] =>
      roleGrants (fst (fst (handleAttempt cl v rounds))) = []
      /\ kicks (fst (fst (handleAttempt cl v rounds)))
         = (if JS.truthy_bool (kickOnFailure (options cl))
            then ["Failed to Pass CAPTCHA"] else [])
  | _ => False
  end.
Proof.
  pose proof (loop_outcome_and_effects cl v rounds) as H.
  destruct (handleAttempt cl v rounds) as [[t v'] r]. cbn [fst].
  destruct r as [|[|]].
  - destruct H as (-> & Hr & Hk). split; assumption.
  - destruct H as (-> & Hr & Hk). split; assumption.
  - destruct H as ([-> | ->] & Hr & Hk); split; assumption.
Qed.

(** ** The counters and the history over a whole loop *)

Lemma loop_counters
    (cl : Closure) (v : Vars) (rounds : list (list Message)) :
  let '(t, v', _) := handleAttempt cl v rounds in
  attemptsLeft v' + attemptsTaken v' = attemptsLeft v + attemptsTaken v
  /\ attemptsTaken v <= attemptsTaken v'
  /\ Z.of_nat (List.length (answered t)) <= Z.max 1 (attemptsLeft v)
  /\ attemptsTaken v' + match terminalNames t with
                        | [success] | [failure] => 1
                        | _ => 0
                        end
     = attemptsTaken v + Z.of_nat (List.length (answered t)).
Proof.
  revert rounds v.
  apply (handleAttempt_cases cl
           (fun v _ res =>
              let '(t, v', _) := res in
              attemptsLeft v' + attemptsTaken v' = attemptsLeft v + attemptsTaken v
              /\ attemptsTaken v <= attemptsTaken v'
              /\ Z.of_nat (List.length (answered t)) <= Z.max 1 (attemptsLeft v)
              /\ attemptsTaken v' + match terminalNames t with
                                    | [success] | [failure] => 1
                                    | _ => 0
                                    end
                 = attemptsTaken v + Z.of_nat (List.length (answered t)))).
  - intros v. cbn. lia.
  - intros v arrivals later _.
    destruct (onTimeout_observed cl v) as (Ha & _ & Ht & _).
    rewrite Ha, Ht. cbn. lia.
  - intros v arrivals later m _ _.
    destruct (heard_observed cl v m) as (Ha & _ & Ht & _).
    destruct (onSuccess_observed cl (record cl v m)) as (Ha' & _ & Ht' & _).
    rewrite answered_app, terminalNames_app, Ha, Ht, Ha', Ht'.
    cbn. lia.
  - intros v arrivals later m rest v3 r _ _ Hleft _ (I1 & I2 & I3 & I4).
    destruct (heard_observed cl v m) as (Ha & _ & Ht & _).
    destruct (nextAttempt_observed cl (record cl v m)) as (Ha' & _ & Ht' & _).
    destruct (nextAttempt_vars cl (record cl v m)) as (Hl & Htk & _).
    cbn [record attemptsLeft attemptsTaken] in Hl, Htk.
    rewrite !answered_app, !terminalNames_app, Ha, Ht, Ha', Ht'.
    cbn [app List.length]. rewrite Nat2Z.inj_succ.
    rewrite Hl, Htk in *. repeat split; try lia.
  - intros v arrivals later m _ _ _.
    destruct (heard_observed cl v m) as (Ha & _ & Ht & _).
    destruct (onFailure_observed cl (record cl v m)) as (Ha' & _ & Ht' & _).
    rewrite answered_app, terminalNames_app, Ha, Ht, Ha', Ht'.
    cbn. lia.
Qed.

Lemma loop_left_floor (cl : Closure) :
  forall rounds v,
    Z.min 1 (attemptsLeft v)
    <= attemptsLeft (snd (fst (handleAttempt cl v rounds))).
Proof.
  apply (handleAttempt_cases cl
           (fun v _ res =>
              Z.min 1 (attemptsLeft v) <= attemptsLeft (snd (fst res))));
    cbn [fst snd record attemptsLeft]; intros; try lia.
  destruct (nextAttempt_vars cl (record cl v m)) as (Hl & _).
  cbn [record attemptsLeft] in Hl. lia.
Qed.

(** On counters a JavaScript number holds exactly, over any stretch of
    the loop: the counters stay exact; they move in lock-step
    ([attemptsLeft + attemptsTaken] is constant and [attemptsTaken] never
    goes down); no more responses are heard than attempts were left (one,
    when none were); and [attemptsTaken] has grown by the number of
    responses heard, less one when the loop ended in [success] or
    [failure]. *)
Theorem handleAttempt_counters
    (cl : Closure) (v : Vars) (rounds : list (list Message)) :
  exactCounters v = true ->
  let '(t, v', _) := handleAttempt cl v rounds in
  exactCounters v' = true
  /\ attemptsLeft v' + attemptsTaken v' = attemptsLeft v + attemptsTaken v
  /\ attemptsTaken v <= attemptsTaken v'
  /\ Z.of_nat (List.length (answered t)) <= Z.max 1 (attemptsLeft v)
  /\ attemptsTaken v' + match terminalNames t with
                        | [success] | [failure] => 1
                        | _ => 0
                        end
     = attemptsTaken v + Z.of_nat (List.length (answered t)).
Proof.
  intros Hexact.
  pose proof (loop_counters cl v rounds) as H.
  pose proof (loop_left_floor cl rounds v) as Hfloor.
  destruct (handleAttempt cl v rounds) as [[t v'] r]. cbn [fst snd] in Hfloor.
  destruct H as (Hsum & Hmono & Hbound & Hcount).
  split; [|repeat split; assumption].
  unfold exactCounters in *.
  repeat (apply andb_true_iff in Hexact as [Hexact ?]).
  repeat match goal with
         | H : (_ <=? _) = true |- _ => apply Z.leb_le in H
         end.
  repeat (apply andb_true_iff; split); apply Z.leb_le; lia.
Qed.

(** Three attempts by direct message, two wrong responses and the right
    one. *)
Lemma handleAttempt_counters_of_a_folding_session :
  exactCounters (initialVars (options foldingClosure)) = true
  /\ let '(t, v', _) :=
       handleAttempt foldingClosure (initialVars (options foldingClosure))
                     [[from alice "a"]; [from alice "B"]; [from alice "K7TPLX"]] in
     attemptsLeft v' + attemptsTaken v' = 4
     /\ Z.of_nat (List.length (answered t)) = 3.
Proof.
  split; [reflexivity|].
  pose proof (handleAttempt_counters foldingClosure
                (initialVars (options foldingClosure))
                [[from alice "a"]; [from alice "B"]; [from alice "K7TPLX"]]
                eq_refl) as H.
  destruct (handleAttempt foldingClosure _ _) as [[t v'] r] eqn:E.
  destruct H as (_ & Hsum & _ & _ & _).
  split; [exact Hsum|]. vm_compute in E. injection E as <- _ _. reflexivity.
Defined.

(** The history the loop keeps is the responses announced by [answer],
    each in normal form and in order, after what was there before; and
    the [answer] events are numbered consecutively from the value of
    [attemptsTaken] the loop started with. *)
Theorem handleAttempt_history
    (cl : Closure) (v : Vars) (rounds : list (list Message)) :
  let '(t, v', _) := handleAttempt cl v rounds in
  captchaResponses v'
  = captchaResponses v ++ map (normalize (options cl)) (answered t)
  /\ answerAttempts t = countingFrom (attemptsTaken v) (answered t).
Proof.
  revert rounds v.
  apply (handleAttempt_cases cl
           (fun v _ res =>
              let '(t, v', _) := res in
              captchaResponses v'
              = captchaResponses v ++ map (normalize (options cl)) (answered t)
              /\ answerAttempts t = countingFrom (attemptsTaken v) (answered t))).
  - intros v. cbn. rewrite app_nil_r. split; reflexivity.
  - intros v arrivals later _.
    destruct (onTimeout_observed cl v) as (Ha & Hn & _).
    rewrite Ha, Hn. cbn. rewrite app_nil_r. split; reflexivity.
  - intros v arrivals later m _ _.
    destruct (heard_observed cl v m) as (Ha & Hn & _).
    destruct (onSuccess_observed cl (record cl v m)) as (Ha' & Hn' & _).
    rewrite answered_app, answerAttempts_app, Ha, Hn, Ha', Hn'.
    split; reflexivity.
  - intros v arrivals later m rest v3 r _ _ _ _ [I1 I2].
    destruct (heard_observed cl v m) as (Ha & Hn & _).
    destruct (nextAttempt_observed cl (record cl v m)) as (Ha' & Hn' & _).
    destruct (nextAttempt_vars cl (record cl v m)) as (_ & Htk & Hr).
    cbn [record attemptsTaken captchaResponses] in Htk, Hr.
    rewrite !answered_app, !answerAttempts_app, Ha, Hn, Ha', Hn'.
    cbn [app map countingFrom]. split.
    + rewrite I1, Hr, <- app_assoc. reflexivity.
    + rewrite I2, Htk. reflexivity.
  - intros v arrivals later m _ _ _.
    destruct (heard_observed cl v m) as (Ha & Hn & _).
    destruct (onFailure_observed cl (record cl v m)) as (Ha' & Hn' & _).
    rewrite answered_app, answerAttempts_app, Ha, Hn, Ha', Hn'.
    split; reflexivity.
Qed.

(** ** The loop is bounded *)

Lemma handleAttempt_resolved_ignores_more (cl : Closure) :
  forall rounds v t v' b extra,
    handleAttempt cl v rounds = (t, v', Resolved b) ->
    handleAttempt cl v (rounds ++ extra) = (t, v', Resolved b).
Proof.
  induction rounds as [|arrivals later IH]; intros v t v' b extra H.
  - discriminate.
  - cbn [app handleAttempt] in *.
    destruct (awaitMessages (captchaFilter (member cl)) arrivals) as [m|];
      [|exact H].
    destruct (matches cl (content m)); [exact H|].
    destruct (attemptsLeft (record cl v m) >? 1); [|exact H].
    destruct (handleAttempt cl (fst (nextAttempt cl (record cl v m))) later)
      as [[rest v3] r] eqn:Hrest.
    injection H as <- <- ->.
    rewrite (IH _ _ _ _ extra Hrest). reflexivity.
Qed.

(** As many rounds as there are attempts left (one, when none are)
    always settle the loop, and whatever arrives after them is never
    read. *)
Theorem handleAttempt_stops_within_the_attempts
    (cl : Closure) (v : Vars) (rounds extra : list (list Message)) :
  Z.max 1 (attemptsLeft v) <= Z.of_nat (List.length rounds) ->
  (exists t v' b, handleAttempt cl v rounds = (t, v', Resolved b))
  /\ handleAttempt cl v (rounds ++ extra) = handleAttempt cl v rounds.
Proof.
  intros Hlen.
  destruct (handleAttempt_resolves cl rounds v Hlen) as (t & v' & b & E).
  split; [eauto|].
  rewrite E. apply handleAttempt_resolved_ignores_more. exact E.
Qed.

(** Two attempts, two wrong responses: the right one that follows comes
    too late. *)
Lemma handleAttempt_two_rounds_settle_the_lobby :
  (exists t v' b,
     handleAttempt lobbyClosure (initialVars (options lobbyClosure))
                   [[from alice "nope"]; [from alice "K7TPLX"]]
     = (t, v', Resolved b))
  /\ handleAttempt lobbyClosure (initialVars (options lobbyClosure))
                   ([[from alice "nope"]; [from alice "K7TPLX"]]
                    ++ [[from alice "k7tplx"]])
     = handleAttempt lobbyClosure (initialVars (options lobbyClosure))
                     [[from alice "nope"]; [from alice "K7TPLX"]].
Proof.
  apply (handleAttempt_stops_within_the_attempts lobbyClosure
           (initialVars (options lobbyClosure))
           [[from alice "nope"]; [from alice "K7TPLX"]]
           [[from alice "k7tplx"]]).
  cbn. lia.
Defined.

(** ** Where a session writes *)

(** Every message of the loop goes to the channel of its closure. *)
Lemma loop_targets
    (cl : Closure) (v : Vars) (rounds : list (list Message)) :
  Forall (fun c => c = channel cl)
         (sendTargets (fst (fst (handleAttempt cl v rounds)))).
Proof.
  revert rounds v.
  apply (handleAttempt_cases cl
           (fun _ _ res =>
              Forall (fun c => c = channel cl) (sendTargets (fst (fst res)))));
    cbn [fst].
  - intros v. constructor.
  - intros v arrivals later _.
    destruct (onTimeout_observed cl v) as (_ & _ & _ & _ & _ & Hs & _).
    rewrite Hs. repeat constructor.
  - intros v arrivals later m _ _.
    destruct (heard_observed cl v m) as (_ & _ & _ & _ & _ & Hs & _).
    destruct (onSuccess_observed cl (record cl v m))
      as (_ & _ & _ & _ & _ & Hs' & _).
    rewrite sendTargets_app, Hs, Hs'. repeat constructor.
  - intros v arrivals later m rest v3 r _ _ _ _ IH.
    destruct (heard_observed cl v m) as (_ & _ & _ & _ & _ & Hs & _).
    destruct (nextAttempt_observed cl (record cl v m))
      as (_ & _ & _ & _ & _ & Hs').
    rewrite !sendTargets_app, Hs. cbn [app]. apply Forall_app. split; assumption.
  - intros v arrivals later m _ _ _.
    destruct (heard_observed cl v m) as (_ & _ & _ & _ & _ & Hs & _).
    destruct (onFailure_observed cl (record cl v m))
      as (_ & _ & _ & _ & _ & Hs' & _).
    rewrite sendTargets_app, Hs, Hs'. repeat constructor.
Qed.

(** A call of [present] writes to one channel only, before and after it
    settles: the configured channel when there is a [channelID], the
    member's direct channel otherwise. It never writes to both. *)
Theorem present_single_destination
    (P : Platform) (o : CaptchaOptions) (m : option GuildMember)
    (custom : option CaptchaImageData) (rounds : list (list Message)) :
  Forall (fun c => destination P o = Some c)
         (sendTargets (trace (present P o m custom rounds)
                       ++ loopTrace (present P o m custom rounds))).
Proof.
  unfold loopTrace, present.
  destruct m as [who|]; [|constructor].
  destruct (match custom with Some c => rejectsCustom c | None => false end);
    [constructor|].
  destruct (handleChannelType P o) as [c0|e] eqn:Hok; [|constructor].
  apply handleChannelType_chooses in Hok.
  rename Hok into Hch.
  unfold deliver, destination in *.
  destruct (JS.truthy_string (channelID o)) eqn:Hid.
  - destruct Hch as [[[=] _]|(_ & Hs & Hres)].
    rewrite Hs, Hres. cbn [JS.strictly_true andb].
    destruct (accepts c0) eqn:Hacc; cbn [trace loop app].
    + cbn [sendTargets flat_map app]. apply Forall_cons; [reflexivity|].
      pose proof (loop_targets
                    (closureOf o who c0 (chosenCaptcha P o custom))
                    (initialVars o) rounds) as Hloop.
      destruct (handleAttempt _ _ rounds) as [[t v'] r]. cbn [fst] in Hloop.
      eapply Forall_impl; [|exact Hloop]. intros c ->. reflexivity.
    + repeat constructor.
  - destruct Hch as [[_ Hdm]|([=] & _)].
    rewrite Hdm. cbn [andb].
    destruct (accepts c0) eqn:Hacc; cbn [trace loop app].
    + cbn [sendTargets flat_map app]. apply Forall_cons; [reflexivity|].
      pose proof (loop_targets
                    (closureOf o who c0 (chosenCaptcha P o custom))
                    (initialVars o) rounds) as Hloop.
      destruct (handleAttempt _ _ rounds) as [[t v'] r]. cbn [fst] in Hloop.
      eapply Forall_impl; [|exact Hloop]. intros c ->. reflexivity.
    + repeat constructor.
Qed.

(** ** The prompt shown again *)

Lemma loop_taken_monotone (cl : Closure) :
  forall rounds v,
    attemptsTaken v <= attemptsTaken (snd (fst (handleAttempt cl v rounds))).
Proof.
  apply (handleAttempt_cases cl
           (fun v _ res => attemptsTaken v <= attemptsTaken (snd (fst res))));
    cbn [fst snd record attemptsTaken]; intros; try lia.
  destruct (nextAttempt_vars cl (record cl v m)) as (_ & Htk & _).
  cbn [record attemptsTaken] in Htk. lia.
Qed.

(** On counters a JavaScript number holds exactly, every retry shows the prompt again, in a way that depends on the
    channel. In a guild text channel the prompt message is edited, and
    only when the attempt count is shown; no second prompt message is
    ever sent there. Anywhere else a new prompt message is sent for each
    retry and nothing is edited. With the attempt count shown, the
    footers count down from one less than the attempts left; without it
    a direct-message retry repeats the prompt unchanged. *)
Theorem handleAttempt_reprompts
    (cl : Closure) (v : Vars) (rounds : list (list Message)) :
  exactCounters v = true ->
  let '(t, v', _) := handleAttempt cl v rounds in
  if isGuildText (channel cl)
  then promptSends t = []
       /\ (if JS.truthy_bool (showAttemptCount (options cl))
           then map embedFooter (promptEdits t)
                = countdownFooters (attemptsLeft v)
                                   (Z.to_nat (attemptsTaken v' - attemptsTaken v))
           else promptEdits t = [])
  else promptEdits t = []
       /\ List.length (promptSends t) = Z.to_nat (attemptsTaken v' - attemptsTaken v)
       /\ (if JS.truthy_bool (showAttemptCount (options cl))
           then map embedFooter (promptSends t)
                = countdownFooters (attemptsLeft v)
                                   (Z.to_nat (attemptsTaken v' - attemptsTaken v))
           else promptSends t
                = repeat (captchaPrompt v)
                         (Z.to_nat (attemptsTaken v' - attemptsTaken v))).
Proof.
  intros _.
  revert rounds v.
  apply (handleAttempt_cases cl
           (fun v _ res =>
              let '(t, v', _) := res in
              if isGuildText (channel cl)
              then promptSends t = []
                   /\ (if JS.truthy_bool (showAttemptCount (options cl))
                       then map embedFooter (promptEdits t)
                            = countdownFooters
                                (attemptsLeft v)
                                (Z.to_nat (attemptsTaken v' - attemptsTaken v))
                       else promptEdits t = [])
              else promptEdits t = []
                   /\ List.length (promptSends t)
                      = Z.to_nat (attemptsTaken v' - attemptsTaken v)
                   /\ (if JS.truthy_bool (showAttemptCount (options cl))
                       then map embedFooter (promptSends t)
                            = countdownFooters
                                (attemptsLeft v)
                                (Z.to_nat (attemptsTaken v' - attemptsTaken v))
                       else promptSends t
                            = repeat (captchaPrompt v)
                                     (Z.to_nat (attemptsTaken v' - attemptsTaken v))))).
  - intros v. rewrite Z.sub_diag. cbn.
    destruct (isGuildText (channel cl)),
             (JS.truthy_bool (showAttemptCount (options cl))); repeat split.
  - intros v arrivals later _.
    destruct (onTimeout_observed cl v) as (_ & _ & _ & _ & _ & _ & Hs & He).
    rewrite Hs, He, Z.sub_diag. cbn.
    destruct (isGuildText (channel cl)),
             (JS.truthy_bool (showAttemptCount (options cl))); repeat split.
  - intros v arrivals later m _ _.
    destruct (heard_observed cl v m) as (_ & _ & _ & _ & _ & _ & Hs & He).
    destruct (onSuccess_observed cl (record cl v m))
      as (_ & _ & _ & _ & _ & _ & Hs' & He').
    rewrite promptSends_app, promptEdits_app, Hs, He, Hs', He'.
    cbn [record attemptsTaken]. rewrite Z.sub_diag. cbn.
    destruct (isGuildText (channel cl)),
             (JS.truthy_bool (showAttemptCount (options cl))); repeat split.
  - intros v arrivals later m rest v3 r _ _ _ Hrest.
    destruct (heard_observed cl v m) as (_ & _ & _ & _ & _ & _ & Hs & He).
    rewrite !promptSends_app, !promptEdits_app, Hs, He. cbn [app].
    pose proof (loop_taken_monotone cl later
                  (fst (nextAttempt cl (record cl v m)))) as Hmono.
    rewrite Hrest in Hmono. cbn [fst snd] in Hmono.
    destruct (nextAttempt_vars cl (record cl v m)) as (Hl & Htk & _).
    cbn [record attemptsLeft attemptsTaken] in Hl, Htk.
    rewrite Hl, Htk. rewrite Htk in Hmono.
    assert (Hstep : Z.to_nat (attemptsTaken v3 - attemptsTaken v)
                    = S (Z.to_nat (attemptsTaken v3 - (attemptsTaken v + 1)))) by lia.
    rewrite Hstep. clear Hstep Hmono Hl Htk Hrest.
    unfold nextAttempt.
    destruct (isGuildText (channel cl)),
             (JS.truthy_bool (showAttemptCount (options cl)));
      cbn [andb negb fst snd captchaPrompt record attemptsLeft
           promptSends promptEdits flat_map app map countdownFooters
           repeat List.length setFooter embedFooter].
    + intros (I1 & I2). split; [exact I1|]. rewrite I2. reflexivity.
    + intros (I1 & I2). split; assumption.
    + intros (I1 & I2 & I3). repeat split; [exact I1|lia|rewrite I3; reflexivity].
    + intros (I1 & I2 & I3). repeat split; [exact I1|lia|rewrite I3; reflexivity].
  - intros v arrivals later m _ _ _.
    destruct (heard_observed cl v m) as (_ & _ & _ & _ & _ & _ & Hs & He).
    destruct (onFailure_observed cl (record cl v m))
      as (_ & _ & _ & _ & _ & _ & Hs' & He').
    rewrite promptSends_app, promptEdits_app, Hs, He, Hs', He'.
    cbn [record attemptsTaken]. rewrite Z.sub_diag. cbn.
    destruct (isGuildText (channel cl)),
             (JS.truthy_bool (showAttemptCount (options cl))); repeat split.
Qed.

(** Three attempts by direct message with the count shown: the two
    retries send the prompt with "Attempts Left: 2" and then
    "Attempts Left: 1". *)
Lemma handleAttempt_reprompts_of_a_folding_session :
  exactCounters (initialVars (options foldingClosure)) = true
  /\ map embedFooter
         (promptSends
            (fst (fst (handleAttempt foldingClosure
                                     (initialVars (options foldingClosure))
                                     [[from alice "a"]; [from alice "B"]; []]))))
     = [Some (AttemptsLeftFooter 2); Some (AttemptsLeftFooter 1)].
Proof.
  split; [reflexivity|].
  pose proof (handleAttempt_reprompts foldingClosure
                (initialVars (options foldingClosure))
                [[from alice "a"]; [from alice "B"]; []] eq_refl) as H.
  destruct (handleAttempt foldingClosure _ _) as [[t v'] r] eqn:E.
  vm_compute in E. injection E as <- <- <-.
  destruct H as (_ & _ & H). exact H.
Defined.

(** ** What a call of [present] does, case by case *)

Lemma acceptable_inv (custom : option CaptchaImageData) :
  acceptable custom = true ->
  match custom with Some c => rejectsCustom c | None => false end = false.
Proof.
  destruct custom as [c|]; [|reflexivity]. cbn.
  destruct (rejectsCustom c); [discriminate|reflexivity].
Qed.

(** When the one channel of the call takes the prompt, [present] sends
    the prompt with the challenge image attached, emits [prompt],
    resolves to [true] and leaves the loop running on the variables of
    the options. *)
Theorem present_starts_the_session
    (P : Platform) (o : CaptchaOptions) (who : GuildMember)
    (custom : option CaptchaImageData) (rounds : list (list Message))
    (c : Channel) :
  acceptable custom = true ->
  (JS.truthy_string (channelID o) = true -> sendToTextChannel o = Some true) ->
  destination P o = Some c ->
  accepts c = true ->
  present P o (Some who) custom rounds
  = mkRun (Ok true)
          [Send c (PromptMessage (initialPrompt o (JS.number_or (attempts o) 1))
                                 (image (chosenCaptcha P o custom)));
           Emit prompt (promptPayload
                          (closureOf o who c (chosenCaptcha P o custom))
                          (initialVars o))]
          (Some (handleAttempt (closureOf o who c (chosenCaptcha P o custom))
                               (initialVars o) rounds)).
Proof.
  intros Hok Hforce Hdest Hacc.
  unfold present. rewrite (acceptable_inv custom Hok).
  unfold handleChannelType, deliver, destination in *.
  destruct (JS.truthy_string (channelID o)).
  - rewrite (Hforce eq_refl). cbn [negb JS.strictly_true andb].
    rewrite Hdest, Hacc. reflexivity.
  - cbn [negb andb]. rewrite Hdest, Hacc. reflexivity.
Qed.

(** With a custom prompt embed, the configuration handed out with
    [prompt] holds that embed as it was just rendered: footer and image
    written into it. *)
Lemma present_starts_with_a_custom_prompt :
  exists p,
    trace (present openPlatform (applyDefaults brandedOptions) (Some alice) None [])
    = [Send directChannel
            (PromptMessage (mkEmbed (CustomBody "welcome")
                                    (Some (AttemptsLeftFooter 3))
                                    (Some "attachment://captcha.png"))
                           png);
       Emit prompt p]
    /\ option_map customPromptEmbed (p_captchaOptions p)
       = Some (Some (mkEmbed (CustomBody "welcome")
                             (Some (AttemptsLeftFooter 3))
                             (Some "attachment://captcha.png")))
    /\ customPromptEmbed (applyDefaults brandedOptions)
       = Some (mkEmbed (CustomBody "welcome") (Some (OwnFooter "hello")) None).
Proof.
  rewrite (present_starts_the_session openPlatform
             (applyDefaults brandedOptions) alice None [] directChannel);
    [| reflexivity | discriminate | reflexivity | reflexivity].
  eexists. split; [reflexivity|]. split; reflexivity.
Defined.

(** With no [channelID] and a direct channel that refuses the prompt,
    [present] logs that the direct messages are locked, sends nothing
    more, emits nothing, starts no loop, and resolves to [true]. *)
Theorem present_locked_direct_messages
    (P : Platform) (o : CaptchaOptions) (who : GuildMember)
    (custom : option CaptchaImageData) (rounds : list (list Message))
    (c : Channel) :
  acceptable custom = true ->
  JS.truthy_string (channelID o) = false ->
  createDM P = Some c ->
  accepts c = false ->
  present P o (Some who) custom rounds
  = mkRun (Ok true)
          [SendRejected c
             (PromptMessage (initialPrompt o (JS.number_or (attempts o) 1))
                            (image (chosenCaptcha P o custom)));
           Log DirectMessagesLocked]
          None.
Proof.
  intros Hok Hid Hdm Hacc.
  unfold present. rewrite (acceptable_inv custom Hok).
  unfold handleChannelType, deliver. rewrite Hid. cbn [negb andb].
  rewrite Hdm, Hacc. reflexivity.
Qed.

Lemma present_locked_for_alice :
  settled (present lockedPlatform (applyDefaults (withRole "role-1"))
                   (Some alice) None [[from alice "k7tplx"]])
  = Ok true
  /\ loop (present lockedPlatform (applyDefaults (withRole "role-1"))
                   (Some alice) None [[from alice "k7tplx"]])
     = None.
Proof.
  rewrite (present_locked_direct_messages lockedPlatform
             (applyDefaults (withRole "role-1")) alice None
             [[from alice "k7tplx"]] lockedDirectChannel);
    [split; reflexivity | reflexivity | reflexivity | reflexivity | reflexivity].
Defined.

(** With [sendToTextChannel] and a configured channel that refuses
    messages, [present] tries that channel twice, never the direct
    channel, and rejects: nothing is emitted and no loop starts. *)
Theorem present_refused_by_the_channel
    (P : Platform) (o : CaptchaOptions) (who : GuildMember)
    (custom : option CaptchaImageData) (rounds : list (list Message))
    (c : Channel) :
  acceptable custom = true ->
  JS.truthy_string (channelID o) = true ->
  sendToTextChannel o = Some true ->
  resolveOpt P (channelID o) = Some c ->
  accepts c = false ->
  present P o (Some who) custom rounds
  = mkRun (Throw PlatformRejected)
          [SendRejected c
             (PromptMessage (initialPrompt o (JS.number_or (attempts o) 1))
                            (image (chosenCaptcha P o custom)));
           SendRejected c
             (PromptMessage (initialPrompt o (JS.number_or (attempts o) 1))
                            (image (chosenCaptcha P o custom)))]
          None.
Proof.
  intros Hok Hid Hs Hres Hacc.
  unfold present. rewrite (acceptable_inv custom Hok).
  unfold handleChannelType, deliver. rewrite Hid, Hs. cbn [negb JS.strictly_true andb].
  rewrite Hres, Hacc. reflexivity.
Qed.

Lemma present_refused_in_the_lobby :
  settled (present deafPlatform (applyDefaults twoAttempts) (Some alice) None [])
  = Throw PlatformRejected
  /\ sendTargets (trace (present deafPlatform (applyDefaults twoAttempts)
                                 (Some alice) None []))
     = [deafLobby; deafLobby].
Proof.
  rewrite (present_refused_by_the_channel deafPlatform (applyDefaults twoAttempts)
             alice None [] deafLobby);
    [split; reflexivity | reflexivity | reflexivity | reflexivity | reflexivity
     | reflexivity].
Defined.

(** ** The last message of a session *)

(** A resolved loop sends one confirmation: the success embed after
    [success], the failure embed after [timeout] as well as after
    [failure]; a loop still waiting has sent none. *)
Theorem handleAttempt_confirmation
    (cl : Closure) (v : Vars) (rounds : list (list Message)) :
  confirmations (fst (fst (handleAttempt cl v rounds)))
  = match terminalNames (fst (fst (handleAttempt cl v rounds))) with
    | [success] => [captchaCorrect cl]
    | [timeout_] | [failure] => [captchaIncorrect cl]
    | _ => []
    end.
Proof.
  revert rounds v.
  apply (handleAttempt_cases cl
           (fun _ _ res =>
              confirmations (fst (fst res))
              = match terminalNames (fst (fst res)) with
                | [success] => [captchaCorrect cl]
                | [timeout_] | [failure] => [captchaIncorrect cl]
                | _ => []
                end)); cbn [fst].
  - intros v. reflexivity.
  - intros v arrivals later _. unfold onTimeout, sendIncorrect, when.
    split_flags; reflexivity.
  - intros v arrivals later m _ _. unfold heard, onSuccess, when.
    split_flags; reflexivity.
  - intros v arrivals later m rest v3 r _ _ _ _.
    unfold confirmations, terminalNames. rewrite !flat_map_app.
    unfold heard, nextAttempt, when. split_flags; cbn; intros IH; exact IH.
  - intros v arrivals later m _ _ _. unfold heard, onFailure, sendIncorrect, when.
    split_flags; reflexivity.
Qed.

(** ** The first response equal to the answer *)

Lemma first_match_succeeds
    (cl : Closure) (wrongs : list (list Message)) (arrivals : list Message)
    (later : list (list Message)) :
  Z.of_nat (List.length wrongs) < JS.number_or (attempts (options cl)) 1 ->
  forallb (wrongRound cl) wrongs = true ->
  rightRound cl arrivals = true ->
  exists t v,
    handleAttempt cl (initialVars (options cl)) (wrongs ++ arrivals :: later)
    = (t, v, Resolved true)
    /\ filter isTerminalEmit t = [Emit success (terminalPayload cl v)]
    /\ attemptsTaken v = Z.of_nat (List.length wrongs) + 1
    /\ captchaResponses v = flat_map (recorded cl) (wrongs ++ [arrivals]).
Proof.
  intros Hlen Hall Hright.
  apply rightRound_inv in Hright as (m & Hm & Hok & Hrec).
  destruct (handleAttempt_wrong_prefix cl wrongs (initialVars (options cl))
              (arrivals :: later) Hall Hlen)
    as (v' & pre & _ & Ht' & Hr' & Hpre & _ & Hrun).
  rewrite Hrun, (handleAttempt_right cl v' arrivals later m Hm Hok).
  exists (pre ++ heard cl v' m ++ onSuccess cl (record cl v' m)), (record cl v' m).
  repeat split.
  - rewrite !filter_app, Hpre, heard_no_terminal.
    exact (proj1 (onSuccess_terminal cl _)).
  - cbn [record attemptsTaken]. rewrite Ht'. cbn [initialVars attemptsTaken]. lia.
  - cbn [record captchaResponses]. rewrite Hr', flat_map_app.
    cbn [initialVars captchaResponses flat_map app]. rewrite Hrec, app_nil_r.
    reflexivity.
Qed.

(** Where the two comparisons agree: the switch is defined and the
    expected answer is its own normal form. *)
Lemma specEqual_is_matches (cl : Closure) (r : string) :
  caseSensitive (options cl) <> None ->
  specNormalize (options cl) (text (captcha cl)) = text (captcha cl) ->
  specEqual (options cl) (text (captcha cl)) r = matches cl r
  /\ specNormalize (options cl) r = normalize (options cl) r.
Proof.
  intros Hdef Hnf. unfold specEqual, matches. rewrite Hnf.
  unfold specNormalize, normalize.
  destruct (caseSensitive (options cl)) as [[|]|]; [| |contradiction];
    split; reflexivity.
Qed.

Lemma recorded_is_normalized_typed (cl : Closure) (rounds : list (list Message)) :
  caseSensitive (options cl) <> None ->
  specNormalize (options cl) (text (captcha cl)) = text (captcha cl) ->
  flat_map (recorded cl) rounds
  = map (specNormalize (options cl)) (flat_map (typed (member cl)) rounds).
Proof.
  intros Hdef Hnf. induction rounds as [|a rounds IH]; [reflexivity|].
  cbn [flat_map]. rewrite map_app, IH. f_equal.
  unfold recorded, typed.
  destruct (awaitMessages (captchaFilter (member cl)) a) as [m|]; [|reflexivity].
  cbn [map]. rewrite (proj2 (specEqual_is_matches cl (content m) Hdef Hnf)).
  reflexivity.
Qed.

(** When [caseSensitive] is defined and the expected answer is its own
    normal form (any answer when case-sensitive, a lower-case one
    otherwise), normalizing both sides is what the code does: after
    fewer unequal responses than there are attempts, the first response
    equal to the expected answer ends the session in [success],
    whatever attempts remain, with [attemptsTaken] the number of
    responses and the history the normalized responses in order. *)
Theorem first_equal_response_succeeds
    (cl : Closure) (wrongs : list (list Message)) (arrivals : list Message)
    (later : list (list Message)) :
  caseSensitive (options cl) <> None ->
  specNormalize (options cl) (text (captcha cl)) = text (captcha cl) ->
  Z.of_nat (List.length wrongs) < JS.number_or (attempts (options cl)) 1 ->
  forallb (unequalRound cl) wrongs = true ->
  equalRound cl arrivals = true ->
  exists t v,
    handleAttempt cl (initialVars (options cl)) (wrongs ++ arrivals :: later)
    = (t, v, Resolved true)
    /\ terminalNames t = [success]
    /\ attemptsTaken v = Z.of_nat (List.length wrongs) + 1
    /\ captchaResponses v
       = map (specNormalize (options cl))
             (flat_map (typed (member cl)) (wrongs ++ [arrivals])).
Proof.
  intros Hdef Hnf Hlen Hall Hlast.
  assert (Hall' : forallb (wrongRound cl) wrongs = true).
  { rewrite forallb_forall in *. intros a Ha. specialize (Hall a Ha).
    unfold unequalRound, wrongRound in *.
    destruct (awaitMessages (captchaFilter (member cl)) a) as [m|];
      [|discriminate].
    rewrite <- (proj1 (specEqual_is_matches cl (content m) Hdef Hnf)).
    exact Hall. }
  assert (Hlast' : rightRound cl arrivals = true).
  { unfold equalRound, rightRound in *.
    destruct (awaitMessages (captchaFilter (member cl)) arrivals) as [m|];
      [|discriminate].
    rewrite <- (proj1 (specEqual_is_matches cl (content m) Hdef Hnf)).
    exact Hlast. }
  destruct (first_match_succeeds cl wrongs arrivals later Hlen Hall' Hlast')
    as (t & v & Hrun & Hterm & Htaken & Hhist).
  exists t, v. repeat split; try assumption.
  - pose proof (loop_outcome_and_effects cl (initialVars (options cl))
                  (wrongs ++ arrivals :: later)) as Hout.
    rewrite Hrun in Hout. exact (proj1 Hout).
  - rewrite Hhist. apply recorded_is_normalized_typed; assumption.
Qed.

(** Case-insensitive, with a lower-case answer: "K7TPLX" is equal to
    "k7tplx" and succeeds at the third attempt. *)
Lemma folded_success_at_the_third_attempt :
  exists t v,
    handleAttempt foldingClosure (initialVars (options foldingClosure))
                  ([[from alice "a"]; [from alice "B"]]
                   ++ [from alice "K7TPLX"] :: [])
    = (t, v, Resolved true)
    /\ attemptsTaken v = 3
    /\ captchaResponses v = ["a"; "b"; "k7tplx"].
Proof.
  destruct (first_equal_response_succeeds foldingClosure
              [[from alice "a"]; [from alice "B"]] [from alice "K7TPLX"] [])
    as (t & v & H1 & _ & H3 & H4);
    [discriminate | reflexivity | reflexivity | reflexivity | reflexivity |].
  exists t, v. repeat split; assumption.
Defined.
